(** * get-weather.ts: the LangGraph + Amazon Bedrock tool-calling graph

    A shallow embedding of
    [agents-and-function-calling/open-source-agents/langgraph/get-weather.ts]:
    the bundled [searchTool], the two graph nodes [callBedrockModel] and
    [executeTools], the conditional edge [shouldContinue] and the graph
    [bedrockWorkflow] that wires them.  Rejected promises and thrown
    exceptions are values of [Exn] on the left of a sum; the Bedrock
    client is an oracle taken as a section variable.  [step], [run] and
    [after] give the super-steps of the graph as declared;
    [bedrockWorkflowInvoke] is [invoke] as the script calls it, under
    the runtime's default step limit. *)

From Stdlib Require Import List String Ascii Bool Arith Lia ZArith.
Import ListNotations.
Local Open Scope list_scope.
Local Open Scope string_scope.

(** ** Strings

    JavaScript strings are modelled by [string]; [toLowerCase] is the
    mapping of [String.prototype.toLowerCase] on the ASCII range
    (["A"].. ["Z"] to ["a"].. ["z"], every other character unchanged). *)

Module JsString.

Definition lowerChar (c : ascii) : ascii :=
  let n := nat_of_ascii c in
  if ((65 <=? n) && (n <=? 90))%nat then ascii_of_nat (n + 32) else c.

Fixpoint toLowerCase (s : string) : string :=
  match s with
  | EmptyString => EmptyString
  | String c s' => String (lowerChar c) (toLowerCase s')
  end.

(** [startsWith s needle]: [needle] is an initial segment of [s]. *)
Fixpoint startsWith (s needle : string) : bool :=
  match needle, s with
  | EmptyString, _ => true
  | String _ _, EmptyString => false
  | String a needle', String b s' =>
      if Ascii.eqb a b then startsWith s' needle' else false
  end.

(** [includes s needle]: [needle] occurs somewhere in [s]
    ([String.prototype.includes] with the default position 0). *)
Fixpoint includes (s needle : string) : bool :=
  startsWith s needle ||
  match s with
  | EmptyString => false
  | String _ s' => includes s' needle
  end.

(** The relation [includes] decides. *)
Definition Contains (s needle : string) : Prop :=
  exists pre post, s = pre ++ needle ++ post.

End JsString.

(** ** Exceptions *)

Inductive Exn : Type :=
| TypeError (msg : string)          (* raised by the JavaScript runtime *)
| Error (msg : string)              (* [new Error(msg)] *)
| ServiceException (name : string)  (* rejection of [bedrockClient.send] *)
| GraphRecursionError.              (* the graph runtime's step limit *)

(** A computation that may throw. *)
Definition Throws (A : Type) : Type := (Exn + A)%type.

Definition ret {A} (a : A) : Throws A := inr a.
Definition throw {A} (e : Exn) : Throws A := inl e.
Definition bind {A B} (m : Throws A) (k : A -> Throws B) : Throws B :=
  match m with
  | inl e => inl e
  | inr a => k a
  end.

Notation "x <- m ;; k" := (bind m (fun x => k))
  (at level 61, m at next level, right associativity).

(** ** Bedrock runtime data (the SDK types the source imports) *)

(** [DocumentType]: the JSON value carried as a tool input. *)
#[local] Set Warnings "-register-all".
Inductive Document : Type :=
| DNull
| DBool (b : bool)
| DNumber (n : Z)
| DString (s : string)
| DArray (items : list Document)
| DObject (fields : list (string * Document)).

Record ToolUseBlock : Type := mkToolUse {
  toolUseId : option string;
  name : option string;
  input : option Document
}.

Inductive ToolResultContentBlock : Type :=
| TextContent (text : string)
| JsonContent (json : Document).

Record ToolResultBlock : Type := mkToolResult {
  resultToolUseId : option string;
  resultContent : list ToolResultContentBlock
}.

(** [ContentBlock] is a tagged union; the members the source never
    inspects (image, document, ...) are kept under [OtherMember]. *)
Inductive ContentBlock : Type :=
| TextMember (text : string)
| ToolUseMember (toolUse : ToolUseBlock)
| ToolResultMember (toolResult : ToolResultBlock)
| OtherMember (tag : string).

Record Message : Type := mkMessage {
  role : string;
  content : option (list ContentBlock)
}.

Record ConverseOutput : Type := mkOutput {
  message : option Message
}.

Record ConverseResponse : Type := mkResponse {
  output : option ConverseOutput;
  stopReason : option string
}.

(** ** The bundled tool *)

(** Property lookup [obj.key] on an object's fields. *)
Fixpoint getField (key : string) (fields : list (string * Document))
  : option Document :=
  match fields with
  | [] => None
  | (k, v) :: rest => if String.eqb k key then Some v else getField key rest
  end.

(** The parameter pattern [{ query }] of [searchTool]: destructuring
    [undefined] or [null] throws; a primitive or an array has no such
    property; an object yields its field, if any. *)
Definition destructureQuery (arg : option Document)
  : Throws (option Document) :=
  match arg with
  | None => throw (TypeError "Cannot destructure property 'query' of 'undefined' as it is undefined.")
  | Some DNull => throw (TypeError "Cannot destructure property 'query' of 'object null' as it is null.")
  | Some (DObject fields) => ret (getField "query" fields)
  | Some _ => ret None
  end.

(** [query.toLowerCase()]: only a string has the method. *)
Definition callToLowerCase (query : option Document) : Throws string :=
  match query with
  | Some (DString s) => ret (JsString.toLowerCase s)
  | None =>
      throw (TypeError "Cannot read properties of undefined (reading 'toLowerCase')")
  | Some DNull =>
      throw (TypeError "Cannot read properties of null (reading 'toLowerCase')")
  | Some _ => throw (TypeError "query.toLowerCase is not a function")
  end.

Definition foggy : string := "It's 60 degrees and foggy in San Francisco.".
Definition sunny : string := "It's 90 degrees and sunny.".

Definition searchTool (arg : option Document) : Throws string :=
  query <- destructureQuery arg ;;
  lowered <- callToLowerCase query ;;
  if JsString.includes lowered "sf" then ret foggy
  else
    lowered' <- callToLowerCase query ;;
    if JsString.includes lowered' "san francisco" then ret foggy
    else ret sunny.

(** The argument object [{ query: q }]. *)
Definition queryArg (q : string) : option Document :=
  Some (DObject [("query", DString q)]).

(** ** Graph state

    [GraphState] has one channel, [messages], whose reducer is
    [(a, b) => a.concat(b)] and whose default is [[]]. *)

Record GraphState : Type := mkState {
  messages : list Message
}.

(** [Partial<typeof GraphState.State>]: the update a node returns. *)
Record PartialState : Type := mkPartial {
  messagesUpdate : option (list Message)
}.

Definition reducer (a b : list Message) : list Message := (a ++ b)%list.
Definition default : list Message := [].

Definition applyUpdate (s : GraphState) (u : PartialState) : GraphState :=
  match messagesUpdate u with
  | None => s
  | Some b => mkState (reducer (messages s) b)
  end.

(** [state.messages[state.messages.length - 1]]; [undefined] on an
    empty array. *)
Definition lastMessage (s : GraphState) : option Message :=
  nth_error (messages s) (List.length (messages s) - 1).

(** ** Tool configuration sent with every request *)

Record ToolSpec : Type := mkToolSpec {
  specName : string;
  description : string;
  inputSchema : Document
}.

Definition ToolConfiguration : Type := list ToolSpec.

Definition bedrockToolConfig : ToolConfiguration :=
  [ mkToolSpec "search"
      "Use this tool to query the web for weather information."
      (DObject
         [ ("type", DString "object");
           ("properties",
            DObject
              [ ("query",
                 DObject [ ("type", DString "string");
                           ("description", DString "The search query") ]) ]);
           ("required", DArray [DString "query"]) ]) ].

Definition BEDROCK_MODEL_ID : string :=
  "anthropic.claude-3-5-sonnet-20240620-v1:0".

Record ConverseCommand : Type := mkCommand {
  modelId : string;
  commandMessages : list Message;
  toolConfig : ToolConfiguration
}.

(** ** Nodes and edges of the graph *)

Inductive Node : Type :=
| NodeStart   (* "__start__" *)
| NodeModel   (* "model" *)
| NodeTools   (* "tools" *)
| NodeEnd.    (* "__end__" *)

(** ["toolUse" in block] *)
Definition isToolUse (block : ContentBlock) : bool :=
  match block with
  | ToolUseMember _ => true
  | _ => false
  end.

(** [toolBlock.toolUse] *)
Definition getToolUse (block : ContentBlock) : option ToolUseBlock :=
  match block with
  | ToolUseMember t => Some t
  | _ => None
  end.

(** A template literal prints an absent value as ["undefined"]. *)
Definition showName (n : option string) : string :=
  match n with
  | Some s => s
  | None => "undefined"
  end.

(** [toolUse.name === "search"] *)
Definition isSearch (n : option string) : bool :=
  match n with
  | Some s => String.eqb s "search"
  | None => false
  end.

(** Lines 133-138: dispatch on the tool name. *)
Definition dispatch (toolUse : ToolUseBlock) : Throws string :=
  if isSearch (name toolUse) then searchTool (input toolUse)
  else ret ("Unknown tool: " ++ showName (name toolUse)).

(** One iteration of the [for] loop, lines 130-145: the block pushed
    on [toolResults.content]. *)
Definition executeOne (toolBlock : ContentBlock) : Throws ContentBlock :=
  match getToolUse toolBlock with
  | None =>
      throw (TypeError "Cannot read properties of undefined (reading 'name')")
  | Some toolUse =>
      resultContent <- dispatch toolUse ;;
      ret (ToolResultMember
             (mkToolResult (toolUseId toolUse) [TextContent resultContent]))
  end.

(** The [for ... of] loop over [toolUseBlocks]; [acc] is
    [toolResults.content], grown by [push]. *)
Fixpoint toolLoop (toolUseBlocks : list ContentBlock) (acc : list ContentBlock)
  : Throws (list ContentBlock) :=
  match toolUseBlocks with
  | [] => ret acc
  | toolBlock :: rest =>
      pushed <- executeOne toolBlock ;;
      toolLoop rest (acc ++ [pushed])%list
  end.

(** [lastMessage.content?.filter(...) ?? []] *)
Definition toolUseBlocksOf (m : Message) : list ContentBlock :=
  match content m with
  | Some blocks => filter isToolUse blocks
  | None => []
  end.

Definition lastMessageMissing : Exn :=
  TypeError "Cannot read properties of undefined (reading 'content')".

Definition executeTools (s : GraphState) : Throws PartialState :=
  match lastMessage s with
  | None => throw lastMessageMissing
  | Some m =>
      let toolUseBlocks := toolUseBlocksOf m in
      if Nat.eqb (List.length toolUseBlocks) 0 then
        throw (Error "No tool calls found in message.")
      else
        results <- toolLoop toolUseBlocks [] ;;
        ret (mkPartial (Some [mkMessage "user" (Some results)]))
  end.

(** [lastMessage.content?.some(...)], with [undefined] falsy. *)
Definition hasToolUse (m : Message) : bool :=
  match content m with
  | Some blocks => existsb isToolUse blocks
  | None => false
  end.

Definition shouldContinue (s : GraphState) : Throws Node :=
  match lastMessage s with
  | None => throw lastMessageMissing
  | Some m => if hasToolUse m then ret NodeTools else ret NodeEnd
  end.

(** [response.output?.message?.content ?? []] *)
Definition responseContent (response : ConverseResponse) : list ContentBlock :=
  match output response with
  | None => []
  | Some o =>
      match message o with
      | None => []
      | Some m =>
          match content m with
          | None => []
          | Some blocks => blocks
          end
      end
  end.

(** A run of the compiled graph: the node about to execute, the state,
    and the number of requests sent to Bedrock so far. *)
Record Config : Type := mkConfig {
  node : Node;
  state : GraphState;
  calls : nat
}.

(** How [invoke] settles: the promise resolves with the final state or
    rejects with the exception a node threw. *)
Inductive Outcome : Type :=
| Done (final : GraphState) (sent : nat)
| Failed (e : Exn) (sent : nat).

Section Graph.

(** [bedrockClient.send]: the [n]-th request (counting from 0)
    resolves with a response or rejects. *)
Variable send : nat -> ConverseCommand -> Throws ConverseResponse.

Definition callBedrockModel (n : nat) (s : GraphState) : Throws PartialState :=
  let command := mkCommand BEDROCK_MODEL_ID (messages s) bedrockToolConfig in
  response <- send n command ;;
  let assistantMessage := mkMessage "assistant" (Some (responseContent response)) in
  ret (mkPartial (Some [assistantMessage])).

(** One super-step of [bedrockWorkflow]: run the node, merge its
    update, follow the outgoing edge. *)
Definition step (c : Config) : Config + Outcome :=
  match node c with
  | NodeStart => inl (mkConfig NodeModel (state c) (calls c))
  | NodeModel =>
      match callBedrockModel (calls c) (state c) with
      | inl e => inr (Failed e (S (calls c)))
      | inr u =>
          let s' := applyUpdate (state c) u in
          match shouldContinue s' with
          | inl e => inr (Failed e (S (calls c)))
          | inr next => inl (mkConfig next s' (S (calls c)))
          end
      end
  | NodeTools =>
      match executeTools (state c) with
      | inl e => inr (Failed e (calls c))
      | inr u => inl (mkConfig NodeModel (applyUpdate (state c) u) (calls c))
      end
  | NodeEnd => inr (Done (state c) (calls c))
  end.

(** [fuel] super-steps from [c]; [None] when the run has not settled. *)
Fixpoint run (fuel : nat) (c : Config) : option Outcome :=
  match fuel with
  | O => None
  | S fuel' =>
      match step c with
      | inl c' => run fuel' c'
      | inr o => Some o
      end
  end.

(** The configuration reached after [n] super-steps, if the run is
    still going. *)
Fixpoint after (n : nat) (c : Config) : option Config :=
  match n with
  | O => Some c
  | S n' =>
      match step c with
      | inl c' => after n' c'
      | inr _ => None
      end
  end.

(** The configuration a run starts in: the input merged into the
    default state, no request sent. *)
Definition initial (input : list Message) : Config :=
  mkConfig NodeStart (applyUpdate (mkState default) (mkPartial (Some input))) 0.

(** The run on [input] within a budget of [fuel] super-steps. *)
Definition invoke (fuel : nat) (input : list Message) : option Outcome :=
  run fuel (initial input).

(** The graph runtime (LangGraph, imported at line 36) bounds every
    run by its [recursionLimit]; [compile()] and [invoke] at lines 176
    and 183 pass no configuration, so the default applies. *)
Definition recursionLimit : nat := 25.

(** The runtime's loop: each tick first checks the step limit and
    rejects with [GraphRecursionError] when it is used up, and
    otherwise performs one super-step. *)
Fixpoint ticks (budget : nat) (c : Config) : Outcome :=
  match budget with
  | O => Failed GraphRecursionError (calls c)
  | S budget' =>
      match step c with
      | inl c' => ticks budget' c'
      | inr o => o
      end
  end.

(** [await bedrockWorkflow.invoke({ messages: input })], line 183: the
    limit admits the start step and [recursionLimit] more ticks. *)
Definition bedrockWorkflowInvoke (input : list Message) : Outcome :=
  ticks (S recursionLimit) (initial input).

End Graph.

(** ** Reading the final response (lines 192-199) *)

(** ["text" in block] *)
Definition isText (block : ContentBlock) : bool :=
  match block with
  | TextMember _ => true
  | _ => false
  end.

(** [block.text]; [join] prints an absent value as the empty string. *)
Definition getText (block : ContentBlock) : string :=
  match block with
  | TextMember text => text
  | _ => ""
  end.

Definition newline : string := String (ascii_of_nat 10) EmptyString.

(** [finalMessage.content?.filter(...).map(...).join("\n")] on the last
    message of the resolved state; [None] is [undefined]. *)
Definition finalText (bedrockResult : GraphState) : Throws (option string) :=
  match lastMessage bedrockResult with
  | None => throw lastMessageMissing
  | Some finalMessage =>
      ret (option_map
             (fun blocks => String.concat newline (map getText (filter isText blocks)))
             (content finalMessage))
  end.

(** ** Vocabulary of the properties *)

(** The tool requests carried by a message, in order. *)
Definition requestsIn (blocks : list ContentBlock) : list ToolUseBlock :=
  flat_map (fun b => match getToolUse b with
                     | Some t => [t]
                     | None => []
                     end) blocks.

Definition requestsOf (m : Message) : list ToolUseBlock :=
  match content m with
  | Some blocks => requestsIn blocks
  | None => []
  end.

(** The input satisfies the schema advertised in [bedrockToolConfig]:
    an object whose [query] is a string. *)
Definition hasStringQuery (arg : option Document) : bool :=
  match arg with
  | Some (DObject fields) =>
      match getField "query" fields with
      | Some (DString _) => true
      | _ => false
      end
  | _ => false
  end.

(** A request is well formed when, if it names the [search] tool, its
    input satisfies that tool's schema. *)
Definition wellFormedRequest (t : ToolUseBlock) : bool :=
  if isSearch (name t) then hasStringQuery (input t) else true.

(** [r] is the result block the loop builds for request [t]: same id,
    and one text item holding what the dispatch returned. *)
Definition answers (t : ToolUseBlock) (r : ToolResultBlock) : Prop :=
  resultToolUseId r = toolUseId t /\
  exists text, dispatch t = ret text /\ resultContent r = [TextContent text].

(** The payload built for a tool name that is not [search]. *)
Definition unknownToolResult (t : ToolUseBlock) : ToolResultBlock :=
  mkToolResult (toolUseId t)
    [TextContent ("Unknown tool: " ++ showName (name t))].

(** ["toolResult" in block] *)
Definition isToolResult (block : ContentBlock) : bool :=
  match block with
  | ToolResultMember _ => true
  | _ => false
  end.

(** The message [executeTools] returns around the blocks it built. *)
Definition toolResultsMessage (results : list ToolResultBlock) : Message :=
  mkMessage "user" (Some (map ToolResultMember results)).

(** The message [callBedrockModel] builds from a response. *)
Definition assistantTurn (response : ConverseResponse) : Message :=
  mkMessage "assistant" (Some (responseContent response)).

(** [a] is an initial segment of [b]. *)
Definition isPrefix (a b : list Message) : Prop :=
  exists suffix, b = (a ++ suffix)%list.

(** A model that asks for the [search] tool on every request. *)
Definition searchRequest : ContentBlock :=
  ToolUseMember (mkToolUse (Some "tooluse_1") (Some "search") (queryArg "weather in sf")).

Definition alwaysSearch (n : nat) (command : ConverseCommand)
  : Throws ConverseResponse :=
  ret (mkResponse
         (Some (mkOutput (Some (mkMessage "assistant" (Some [searchRequest])))))
         (Some "tool_use")).

(** The question the script asks. *)
Definition question : list Message :=
  [mkMessage "user" (Some [TextMember "What is the weather in Los Angeles?"])].

(** The request [callBedrockModel] builds from a state. *)
Definition commandFor (s : GraphState) : ConverseCommand :=
  mkCommand BEDROCK_MODEL_ID (messages s) bedrockToolConfig.

(** The state once a node's single message has been merged. *)
Definition appended (s : GraphState) (m : Message) : GraphState :=
  mkState (messages s ++ [m])%list.

Definition noToolCalls : Exn := Error "No tool calls found in message.".

(** An assistant turn asking for the [search] tool. *)
Definition searchTurn : Message :=
  mkMessage "assistant" (Some [TextMember "Let me look that up."; searchRequest]).

(** An assistant turn asking for a tool that does not exist and for
    [search] with an input that lacks [query]. *)
Definition lookupRequest : ToolUseBlock :=
  mkToolUse (Some "tooluse_1") (Some "lookup")
    (Some (DObject [("city", DString "SF")])).

Definition emptySearchRequest : ToolUseBlock :=
  mkToolUse (Some "tooluse_2") (Some "search") (Some (DObject [])).

Definition mixedTurn : Message :=
  mkMessage "assistant"
    (Some [ToolUseMember lookupRequest; ToolUseMember emptySearchRequest]).

Definition undefinedQuery : Exn :=
  TypeError "Cannot read properties of undefined (reading 'toLowerCase')".



(** A model that asks for [search] first and then answers in text. *)
Definition sunnyReply : ConverseResponse :=
  mkResponse
    (Some (mkOutput (Some (mkMessage "assistant" (Some [TextMember "It's sunny."])))))
    (Some "end_turn").

Definition scripted (n : nat) (command : ConverseCommand)
  : Throws ConverseResponse :=
  match n with
  | O => alwaysSearch n command
  | S _ => ret sunnyReply
  end.

(** A client whose second request is throttled. *)
Definition throttled (n : nat) (command : ConverseCommand)
  : Throws ConverseResponse :=
  match n with
  | O => alwaysSearch n command
  | S _ => throw (ServiceException "ThrottlingException")
  end.


(** Every response of the model asks for at least one tool, with
    well-formed requests. *)
Definition alwaysRequests
           (send : nat -> ConverseCommand -> Throws ConverseResponse) : Prop :=
  forall n command,
    exists response,
      send n command = ret response /\
      requestsOf (assistantTurn response) <> [] /\
      forallb wellFormedRequest (requestsOf (assistantTurn response)) = true.

(** The text blocks of a content list, in order. *)
Definition textsIn (blocks : list ContentBlock) : list string :=
  flat_map (fun b => match b with
                     | TextMember text => [text]
                     | _ => []
                     end) blocks.

(** The role of the [i]-th message a run appends (counting from 0). *)
Definition roleAt (i : nat) : string :=
  if Nat.even i then "assistant" else "user".


(** What holds of every configuration of a run started on [input]:
    the messages are [input] followed by the appended ones, whose
    roles alternate; their number is tied to the requests sent; the
    tools node is entered only right after the last request returned
    a turn with tool requests, the end node only right after it
    returned a turn without; the model node is re-entered only after
    the results answering the previous turn. *)
Definition runInvariant
           (send : nat -> ConverseCommand -> Throws ConverseResponse)
           (input : list Message) (c : Config) : Prop :=
  exists added,
    messages (state c) = (input ++ added)%list /\
    (forall i m, nth_error added i = Some m -> role m = roleAt i) /\
    match node c with
    | NodeStart => added = [] /\ calls c = 0
    | NodeModel =>
        List.length added = 2 * calls c /\
        (calls c = 0 \/
         exists history response results,
           messages (state c) =
             (history ++ [assistantTurn response; toolResultsMessage results])%list /\
           Forall2 answers (requestsOf (assistantTurn response)) results)
    | NodeTools =>
        List.length added + 1 = 2 * calls c /\
        exists previous response,
          state c = appended previous (assistantTurn response) /\
          send (Nat.pred (calls c)) (commandFor previous) = ret response /\
          hasToolUse (assistantTurn response) = true
    | NodeEnd =>
        List.length added + 1 = 2 * calls c /\
        exists previous response,
          state c = appended previous (assistantTurn response) /\
          send (Nat.pred (calls c)) (commandFor previous) = ret response /\
          hasToolUse (assistantTurn response) = false
    end.

(** * Properties *)

(** ** Substring search *)

Module JsStringFacts.
Import JsString.

Lemma startsWith_append (needle post : string) :
  startsWith (needle ++ post) needle = true.
Proof.
  induction needle as [|a needle IH]; simpl.
  - destruct post; reflexivity.
  - rewrite Ascii.eqb_refl. exact IH.
Qed.

Lemma startsWith_inv (s needle : string) :
  startsWith s needle = true -> exists post, s = needle ++ post.
Proof.
  revert s.
  induction needle as [|a needle IH]; intros s H.
  - exists s. reflexivity.
  - destruct s as [|b s]; simpl in H; [discriminate|].
    destruct (Ascii.eqb_spec a b) as [->|_]; [|discriminate].
    destruct (IH s H) as [post ->].
    exists post. reflexivity.
Qed.

Lemma includes_unfold (s needle : string) :
  includes s needle =
  startsWith s needle ||
  match s with
  | EmptyString => false
  | String _ s' => includes s' needle
  end.
Proof. destruct s; reflexivity. Qed.

Lemma includes_Contains (s needle : string) :
  includes s needle = true <-> Contains s needle.
Proof.
  split.
  - induction s as [|c s IH]; rewrite includes_unfold; intros H;
      apply orb_true_iff in H; destruct H as [H|H].
    + destruct (startsWith_inv _ _ H) as [post E].
      exists "", post. exact E.
    + discriminate.
    + destruct (startsWith_inv _ _ H) as [post E].
      exists "", post. exact E.
    + destruct (IH H) as (pre & post & ->).
      exists (String c pre), post. reflexivity.
  - intros (pre & post & ->).
    induction pre as [|c pre IH].
    + rewrite includes_unfold. change ("" ++ needle ++ post) with (needle ++ post).
      rewrite startsWith_append. reflexivity.
    + rewrite includes_unfold.
      change (String c pre ++ needle ++ post)
        with (String c (pre ++ needle ++ post)).
      cbv beta iota. rewrite IH. apply orb_true_r.
Qed.

Lemma includes_not_Contains (s needle : string) :
  includes s needle = false <-> ~ Contains s needle.
Proof.
  rewrite <- includes_Contains.
  destruct (includes s needle); split; intros H; congruence.
Qed.

Example toLowerCase_sample :
  toLowerCase "Weather in SF, please?" = "weather in sf, please?".
Proof. reflexivity. Qed.

Example includes_sample :
  includes "weather in sf, please?" "sf" = true /\
  includes "san fran" "san francisco" = false.
Proof. split; reflexivity. Qed.

End JsStringFacts.

(** ** The search tool *)

Lemma searchTool_query (q : string) :
  searchTool (queryArg q) =
  ret (if JsString.includes (JsString.toLowerCase q) "sf"
          || JsString.includes (JsString.toLowerCase q) "san francisco"
       then foggy else sunny).
Proof.
  unfold searchTool, queryArg, destructureQuery, callToLowerCase, bind, ret.
  cbn [getField String.eqb Ascii.eqb Bool.eqb].
  destruct (JsString.includes (JsString.toLowerCase q) "sf"); [reflexivity|].
  destruct (JsString.includes (JsString.toLowerCase q) "san francisco");
    reflexivity.
Qed.

(** C10: for every query string [q], [searchTool({ query: q })] resolves
    with the San Francisco sentence exactly when the lowercased query
    contains ["sf"] or ["san francisco"] as a substring, and with the
    sunny sentence exactly when it contains neither. *)
Theorem searchTool_answer (q : string) :
  let lowered := JsString.toLowerCase q in
  let mentionsSF :=
    JsString.Contains lowered "sf" \/ JsString.Contains lowered "san francisco" in
  (searchTool (queryArg q) = ret foggy <-> mentionsSF) /\
  (searchTool (queryArg q) = ret sunny <-> ~ mentionsSF).
Proof.
  cbv zeta. rewrite searchTool_query.
  rewrite <- !JsStringFacts.includes_Contains, <- orb_true_iff.
  assert (Hne : @inr Exn string foggy <> inr sunny)
    by (intros E; inversion E).
  destruct (JsString.includes (JsString.toLowerCase q) "sf"
            || JsString.includes (JsString.toLowerCase q) "san francisco");
    unfold ret; repeat split; intros H;
    try reflexivity; try discriminate; congruence.
Qed.

(** ** Reading the last message *)

Lemma lastMessage_snoc (l : list Message) (m : Message) :
  lastMessage (mkState (l ++ [m])%list) = Some m.
Proof.
  unfold lastMessage. cbn [messages].
  rewrite length_app. cbn [List.length].
  replace (List.length l + 1 - 1) with (List.length l) by lia.
  rewrite nth_error_app2 by lia.
  rewrite Nat.sub_diag. reflexivity.
Qed.

Lemma toolUseBlocks_requestsIn (blocks : list ContentBlock) :
  filter isToolUse blocks = map ToolUseMember (requestsIn blocks).
Proof.
  induction blocks as [|b blocks IH]; [reflexivity|].
  destruct b; cbn; rewrite ?IH; reflexivity.
Qed.

Lemma toolUseBlocksOf_requestsOf (m : Message) :
  toolUseBlocksOf m = map ToolUseMember (requestsOf m).
Proof.
  unfold toolUseBlocksOf, requestsOf.
  destruct (content m); [apply toolUseBlocks_requestsIn | reflexivity].
Qed.

Lemma existsb_requestsIn (blocks : list ContentBlock) :
  existsb isToolUse blocks = false <-> requestsIn blocks = [].
Proof.
  induction blocks as [|b blocks IH]; [cbn; tauto|].
  destruct b; cbn; rewrite ?IH; try tauto.
  split; discriminate.
Qed.

Lemma hasToolUse_requestsOf (m : Message) :
  hasToolUse m = false <-> requestsOf m = [].
Proof.
  unfold hasToolUse, requestsOf.
  destruct (content m); [apply existsb_requestsIn | tauto].
Qed.

(** ** The tool loop *)

Lemma dispatch_wellFormed (t : ToolUseBlock) :
  wellFormedRequest t = true -> exists text, dispatch t = ret text.
Proof.
  unfold wellFormedRequest, dispatch.
  destruct (isSearch (name t)); [|eexists; reflexivity].
  unfold hasStringQuery. intros H.
  destruct (input t) as [[| | | | |fields]|] eqn:E; try discriminate.
  destruct (getField "query" fields) as [[| | |q| |]|] eqn:F; try discriminate.
  unfold searchTool, destructureQuery, callToLowerCase, bind, ret.
  rewrite F.
  destruct (JsString.includes (JsString.toLowerCase q) "sf");
    [eexists; reflexivity|].
  destruct (JsString.includes (JsString.toLowerCase q) "san francisco");
    eexists; reflexivity.
Qed.

Lemma dispatch_unknown (t : ToolUseBlock) :
  isSearch (name t) = false ->
  dispatch t = ret ("Unknown tool: " ++ showName (name t)).
Proof. unfold dispatch. intros ->. reflexivity. Qed.

Lemma executeOne_request (t : ToolUseBlock) (text : string) :
  dispatch t = ret text ->
  executeOne (ToolUseMember t) =
  ret (ToolResultMember (mkToolResult (toolUseId t) [TextContent text])).
Proof. unfold executeOne. cbn. intros ->. reflexivity. Qed.

(** The loop pushes, after what it was given, one block per request. *)
Lemma toolLoop_requests (requests : list ToolUseBlock) :
  forallb wellFormedRequest requests = true ->
  exists results,
    Forall2 answers requests results /\
    forall acc,
      toolLoop (map ToolUseMember requests) acc =
      ret (acc ++ map ToolResultMember results)%list.
Proof.
  induction requests as [|t requests IH]; intros H.
  - exists []. split; [constructor|].
    intros acc. cbn. rewrite app_nil_r. reflexivity.
  - cbn in H. apply andb_true_iff in H. destruct H as [Ht Hrest].
    destruct (IH Hrest) as (results & Hall & Hloop).
    destruct (dispatch_wellFormed t Ht) as [text Htext].
    exists (mkToolResult (toolUseId t) [TextContent text] :: results).
    split.
    + constructor; [|exact Hall].
      split; [reflexivity|]. exists text. split; [exact Htext | reflexivity].
    + intros acc. cbn [map toolLoop].
      rewrite (executeOne_request t text Htext). cbn [bind ret].
      rewrite Hloop. unfold ret. rewrite <- app_assoc. reflexivity.
Qed.

Lemma Forall2_answers_ids (requests : list ToolUseBlock)
      (results : list ToolResultBlock) :
  Forall2 answers requests results ->
  map resultToolUseId results = map toolUseId requests.
Proof.
  induction 1 as [|t r requests results [Hid _] _ IH]; cbn;
    [reflexivity | now rewrite Hid, IH].
Qed.

Lemma Forall2_answers_In (requests : list ToolUseBlock)
      (results : list ToolResultBlock) (t : ToolUseBlock) :
  Forall2 answers requests results -> In t requests ->
  exists r, In r results /\ answers t r.
Proof.
  induction 1 as [|t' r requests results Hr _ IH]; intros Hin.
  - destruct Hin.
  - destruct Hin as [->|Hin].
    + exists r. split; [left; reflexivity | exact Hr].
    + destruct (IH Hin) as (r' & Hin' & Hr').
      exists r'. split; [right; exact Hin' | exact Hr'].
Qed.

(** What [executeTools] returns on a state whose last message carries
    a non-empty, well-formed list of requests. *)
Lemma executeTools_requests (s : GraphState) (m : Message) :
  lastMessage s = Some m ->
  requestsOf m <> [] ->
  forallb wellFormedRequest (requestsOf m) = true ->
  exists results,
    Forall2 answers (requestsOf m) results /\
    executeTools s = ret (mkPartial (Some [toolResultsMessage results])).
Proof.
  intros Hlast Hne Hwf.
  destruct (toolLoop_requests _ Hwf) as (results & Hall & Hloop).
  exists results. split; [exact Hall|].
  unfold executeTools. rewrite Hlast. cbv zeta.
  rewrite toolUseBlocksOf_requestsOf, length_map.
  destruct (requestsOf m) as [|t rest] eqn:E; [contradiction|].
  cbn [List.length Nat.eqb].
  rewrite Hloop. reflexivity.
Qed.

(** ** Super-steps of the graph *)

Section GraphFacts.

Variable send : nat -> ConverseCommand -> Throws ConverseResponse.

Lemma callBedrockModel_ok (n : nat) (s : GraphState) (response : ConverseResponse) :
  send n (commandFor s) = ret response ->
  callBedrockModel send n s = ret (mkPartial (Some [assistantTurn response])).
Proof.
  unfold callBedrockModel, commandFor. cbv zeta. intros ->. reflexivity.
Qed.

Lemma shouldContinue_appended (s : GraphState) (m : Message) :
  shouldContinue (appended s m) =
  ret (if hasToolUse m then NodeTools else NodeEnd).
Proof.
  unfold shouldContinue, appended. rewrite lastMessage_snoc.
  destruct (hasToolUse m); reflexivity.
Qed.

Lemma step_model_ok (c : Config) (response : ConverseResponse) :
  node c = NodeModel ->
  send (calls c) (commandFor (state c)) = ret response ->
  step send c =
  inl (mkConfig
         (if hasToolUse (assistantTurn response) then NodeTools else NodeEnd)
         (appended (state c) (assistantTurn response))
         (S (calls c))).
Proof.
  intros Hnode Hsend. unfold step. rewrite Hnode.
  rewrite (callBedrockModel_ok _ _ _ Hsend).
  unfold ret. cbv beta iota zeta.
  change (applyUpdate (state c) (mkPartial (Some [assistantTurn response])))
    with (appended (state c) (assistantTurn response)).
  rewrite shouldContinue_appended.
  destruct (hasToolUse (assistantTurn response)); reflexivity.
Qed.

Lemma step_model_rejected (c : Config) (e : Exn) :
  node c = NodeModel ->
  send (calls c) (commandFor (state c)) = throw e ->
  step send c = inr (Failed e (S (calls c))).
Proof.
  intros Hnode Hsend. unfold step. rewrite Hnode.
  unfold callBedrockModel. cbv zeta.
  fold (commandFor (state c)). rewrite Hsend. reflexivity.
Qed.

Lemma step_tools_ok (c : Config) (m : Message) :
  node c = NodeTools ->
  executeTools (state c) = ret (mkPartial (Some [m])) ->
  step send c = inl (mkConfig NodeModel (appended (state c) m) (calls c)).
Proof.
  intros Hnode Hexec. unfold step. rewrite Hnode, Hexec. reflexivity.
Qed.

Lemma step_tools_thrown (c : Config) (e : Exn) :
  node c = NodeTools ->
  executeTools (state c) = throw e ->
  step send c = inr (Failed e (calls c)).
Proof.
  intros Hnode Hexec. unfold step. rewrite Hnode, Hexec. reflexivity.
Qed.

(** Once [n] super-steps have led to [c], the run goes on from [c]. *)
Lemma run_after (n k : nat) (c0 c : Config) :
  after send n c0 = Some c -> run send (n + k) c0 = run send k c.
Proof.
  revert c0. induction n as [|n IH]; intros c0 H; cbn in *.
  - now inversion H.
  - destruct (step send c0) as [c1|o]; [apply IH; exact H | discriminate].
Qed.

Lemma after_add (n k : nat) (c0 c : Config) :
  after send n c0 = Some c -> after send (n + k) c0 = after send k c.
Proof.
  revert c0. induction n as [|n IH]; intros c0 H; cbn in *.
  - now inversion H.
  - destruct (step send c0) as [c1|o]; [apply IH; exact H | discriminate].
Qed.

(** A run still going after [n] super-steps has not settled within
    any smaller budget. *)
Lemma run_unsettled (fuel n : nat) (c c' : Config) :
  after send n c = Some c' -> fuel <= n -> run send fuel c = None.
Proof.
  revert n c. induction fuel as [|fuel IH]; intros n c H Hle; [reflexivity|].
  destruct n as [|n]; [lia|]. cbn in *.
  destruct (step send c) as [c1|o]; [|discriminate].
  apply (IH n); [exact H | lia].
Qed.




Lemma ticks_after (k : nat) (c0 c : Config) :
  after send k c0 = Some c ->
  ticks send k c0 = Failed GraphRecursionError (calls c).
Proof.
  revert c0. induction k as [|k IH]; intros c0 H; cbn in *.
  - now inversion H.
  - destruct (step send c0) as [c1|o]; [apply IH; exact H | discriminate].
Qed.

Lemma ticks_inv (k : nat) (c0 : Config) (o : Outcome) :
  ticks send k c0 = o ->
  (exists n c, n < k /\ after send n c0 = Some c /\ step send c = inr o) \/
  (exists c, after send k c0 = Some c /\
             o = Failed GraphRecursionError (calls c)).
Proof.
  revert c0. induction k as [|k IH]; intros c0 H; cbn in H.
  - right. exists c0. split; [reflexivity | now symmetry].
  - destruct (step send c0) as [c1|o'] eqn:E.
    + destruct (IH c1 H) as [(n & c & Hlt & Hafter & Hstep)|(c & Hafter & Ho)].
      * left. exists (S n), c. cbn. rewrite E.
        repeat split; [lia | exact Hafter | exact Hstep].
      * right. exists c. cbn. rewrite E. split; assumption.
    + left. exists 0, c0. subst o'.
      repeat split; [lia | exact E].
Qed.


Lemma after_le (n k : nat) (c0 c : Config) :
  after send (n + k) c0 = Some c -> exists c1, after send n c0 = Some c1.
Proof.
  revert c0. induction n as [|n IH]; intros c0 H.
  - exists c0. reflexivity.
  - cbn in *. destruct (step send c0) as [c1|o]; [apply IH; exact H | discriminate].
Qed.



End GraphFacts.

(** ** Tool execution *)

(** C1: for every well-formed sequence of tool requests, the loop of
    [executeTools] builds exactly one result block per request, in the
    order of the requests, each carrying the id of its request; and on
    a state whose last message carries these requests (at least one),
    [executeTools] returns the message made of exactly these blocks. *)
Theorem executeTools_one_result_per_request (requests : list ToolUseBlock) :
  forallb wellFormedRequest requests = true ->
  exists results,
    Forall2 answers requests results /\
    map resultToolUseId results = map toolUseId requests /\
    toolLoop (map ToolUseMember requests) [] =
      ret (map ToolResultMember results) /\
    forall s m,
      lastMessage s = Some m -> requestsOf m = requests -> requests <> [] ->
      executeTools s = ret (mkPartial (Some [toolResultsMessage results])).
Proof.
  intros Hwf.
  destruct (toolLoop_requests requests Hwf) as (results & Hall & Hloop).
  exists results. repeat split.
  - exact Hall.
  - apply Forall2_answers_ids. exact Hall.
  - apply (Hloop []).
  - intros s m Hlast Hreq Hne.
    unfold executeTools. rewrite Hlast. cbv zeta.
    rewrite toolUseBlocksOf_requestsOf, Hreq, length_map.
    destruct requests as [|t rest]; [contradiction|].
    cbn [List.length Nat.eqb]. rewrite Hloop. reflexivity.
Qed.

Lemma executeTools_one_result_per_request_witness :
  forallb wellFormedRequest
    [mkToolUse (Some "a") (Some "search") (queryArg "SF today");
     lookupRequest] = true /\
  exists results,
    Forall2 answers
      [mkToolUse (Some "a") (Some "search") (queryArg "SF today");
       lookupRequest] results /\
    map resultToolUseId results = [Some "a"; Some "tooluse_1"] /\
    toolLoop
      [ToolUseMember (mkToolUse (Some "a") (Some "search") (queryArg "SF today"));
       ToolUseMember lookupRequest] [] =
      ret (map ToolResultMember results) /\
    forall s m,
      lastMessage s = Some m ->
      requestsOf m =
        [mkToolUse (Some "a") (Some "search") (queryArg "SF today");
         lookupRequest] ->
      [mkToolUse (Some "a") (Some "search") (queryArg "SF today");
       lookupRequest] <> [] ->
      executeTools s = ret (mkPartial (Some [toolResultsMessage results])).
Proof.
  split; [reflexivity|].
  apply (executeTools_one_result_per_request
           [mkToolUse (Some "a") (Some "search") (queryArg "SF today");
            lookupRequest]).
  reflexivity.
Defined.

Example executeTools_sample :
  executeTools (mkState (question ++ [searchTurn])%list) =
  ret (mkPartial
         (Some [toolResultsMessage
                  [mkToolResult (Some "tooluse_1") [TextContent foggy]]])).
Proof. reflexivity. Qed.

(** C8: on a state whose last message carries no tool request,
    [executeTools] throws ["No tool calls found in message."] instead
    of returning a message, and the run rejects with that error. *)
Theorem executeTools_without_requests
        (send : nat -> ConverseCommand -> Throws ConverseResponse)
        (c : Config) (m : Message) :
  node c = NodeTools ->
  lastMessage (state c) = Some m ->
  requestsOf m = [] ->
  executeTools (state c) = throw noToolCalls /\
  step send c = inr (Failed noToolCalls (calls c)) /\
  forall fuel, run send (S fuel) c = Some (Failed noToolCalls (calls c)).
Proof.
  intros Hnode Hlast Hnone.
  assert (Hexec : executeTools (state c) = throw noToolCalls).
  { unfold executeTools. rewrite Hlast. cbv zeta.
    rewrite toolUseBlocksOf_requestsOf, Hnone. reflexivity. }
  pose proof (step_tools_thrown send c noToolCalls Hnode Hexec) as Hstep.
  repeat split; [exact Hexec | exact Hstep |].
  intros fuel. cbn [run]. rewrite Hstep. reflexivity.
Qed.

Lemma executeTools_without_requests_witness :
  executeTools (state (mkConfig NodeTools (mkState question) 1)) =
    throw noToolCalls /\
  step alwaysSearch (mkConfig NodeTools (mkState question) 1) =
    inr (Failed noToolCalls 1) /\
  forall fuel,
    run alwaysSearch (S fuel) (mkConfig NodeTools (mkState question) 1) =
    Some (Failed noToolCalls 1).
Proof.
  apply (executeTools_without_requests alwaysSearch
           (mkConfig NodeTools (mkState question) 1)
           (mkMessage "user"
              (Some [TextMember "What is the weather in Los Angeles?"])));
    reflexivity.
Defined.

(** C4, as stated, fails: the message [executeTools] returns for a
    turn asking for [search] has role ["user"], not ["tool-result"]. *)
Lemma executeTools_role_not_tool_result :
  exists m,
    executeTools (mkState (question ++ [searchTurn])%list) =
      ret (mkPartial (Some [m])) /\
    role m = "user" /\ role m <> "tool-result".
Proof.
  eexists. split; [reflexivity|].
  split; [reflexivity | discriminate].
Qed.

Lemma executeOne_isToolResult (b pushed : ContentBlock) :
  executeOne b = ret pushed -> isToolResult pushed = true.
Proof.
  unfold executeOne.
  destruct (getToolUse b) as [t|]; [|discriminate].
  destruct (dispatch t); [discriminate|].
  cbn. intros H. inversion H. reflexivity.
Qed.

Lemma toolLoop_isToolResult (todo acc out : list ContentBlock) :
  forallb isToolResult acc = true ->
  toolLoop todo acc = ret out ->
  forallb isToolResult out = true.
Proof.
  revert acc. induction todo as [|b todo IH]; intros acc Hacc H; cbn in H.
  - inversion H. subst. exact Hacc.
  - destruct (executeOne b) as [e|pushed] eqn:E; [discriminate|].
    cbn in H. apply (IH (acc ++ [pushed])%list); [|exact H].
    rewrite forallb_app, Hacc. cbn.
    rewrite (executeOne_isToolResult b pushed E). reflexivity.
Qed.

(** C4, amended: whenever [executeTools] returns, it returns exactly
    one message, whose role is ["user"] and whose content is a list of
    tool-result blocks. *)
Theorem executeTools_role_user (s : GraphState) (u : PartialState) :
  executeTools s = ret u ->
  exists blocks,
    u = mkPartial (Some [mkMessage "user" (Some blocks)]) /\
    forallb isToolResult blocks = true.
Proof.
  unfold executeTools.
  destruct (lastMessage s) as [m|]; [|discriminate].
  cbv zeta.
  destruct (Nat.eqb (List.length (toolUseBlocksOf m)) 0); [discriminate|].
  destruct (toolLoop (toolUseBlocksOf m) []) as [e|results] eqn:E;
    [discriminate|].
  cbn. intros H. inversion H. subst.
  exists results. split; [reflexivity|].
  apply (toolLoop_isToolResult _ [] _ eq_refl E).
Qed.

Lemma executeTools_role_user_witness :
  exists blocks,
    mkPartial
      (Some [toolResultsMessage
               [mkToolResult (Some "tooluse_1") [TextContent foggy]]]) =
    mkPartial (Some [mkMessage "user" (Some blocks)]) /\
    forallb isToolResult blocks = true.
Proof.
  apply (executeTools_role_user (mkState (question ++ [searchTurn])%list)).
  reflexivity.
Defined.

(** ** Unknown tool names *)

(** C3, as stated, fails: a turn that asks for the unknown tool
    [lookup] and for [search] without a [query] makes [executeTools]
    throw, and the run rejects instead of going back to the model. *)
Lemma unknown_tool_turn_aborts :
  In lookupRequest (requestsOf mixedTurn) /\
  isSearch (name lookupRequest) = false /\
  executeTools (mkState (question ++ [mixedTurn])%list) = throw undefinedQuery /\
  run alwaysSearch 1
    (mkConfig NodeTools (mkState (question ++ [mixedTurn])%list) 1) =
  Some (Failed undefinedQuery 1).
Proof.
  split; [left; reflexivity|].
  repeat split; reflexivity.
Qed.

(** C3, amended: when a turn carries a request whose tool name is not
    [search], and every [search] request of the turn has a string
    [query], [executeTools] returns a message holding, for that
    request, a result block with the request's id and the text
    ["Unknown tool: <name>"], and the graph goes back to the model
    node with that message appended. *)
Theorem unknown_tool_result
        (send : nat -> ConverseCommand -> Throws ConverseResponse)
        (c : Config) (m : Message) (t : ToolUseBlock) :
  node c = NodeTools ->
  lastMessage (state c) = Some m ->
  In t (requestsOf m) ->
  isSearch (name t) = false ->
  forallb wellFormedRequest (requestsOf m) = true ->
  exists results,
    In (unknownToolResult t) results /\
    executeTools (state c) = ret (mkPartial (Some [toolResultsMessage results])) /\
    step send c =
      inl (mkConfig NodeModel
             (appended (state c) (toolResultsMessage results)) (calls c)).
Proof.
  intros Hnode Hlast Hin Hname Hwf.
  assert (Hne : requestsOf m <> []).
  { intros E. rewrite E in Hin. destruct Hin. }
  destruct (executeTools_requests _ _ Hlast Hne Hwf) as (results & Hall & Hexec).
  exists results. split; [|split; [exact Hexec|]].
  - destruct (Forall2_answers_In _ _ t Hall Hin)
      as (r & Hr & Hid & text & Htext & Hcontent).
    rewrite (dispatch_unknown t Hname) in Htext.
    unfold ret in Htext. inversion Htext. subst text.
    destruct r as [rid rcontent]. cbn in Hid, Hcontent. subst.
    exact Hr.
  - apply step_tools_ok; assumption.
Qed.

Lemma unknown_tool_result_witness :
  exists results,
    In (unknownToolResult lookupRequest) results /\
    executeTools
      (state (mkConfig NodeTools
                (mkState
                   (question ++
                    [mkMessage "assistant"
                       (Some [ToolUseMember lookupRequest; searchRequest])])%list)
                1)) =
      ret (mkPartial (Some [toolResultsMessage results])) /\
    step alwaysSearch
      (mkConfig NodeTools
         (mkState
            (question ++
             [mkMessage "assistant"
                (Some [ToolUseMember lookupRequest; searchRequest])])%list)
         1) =
      inl (mkConfig NodeModel
             (appended
                (state (mkConfig NodeTools
                          (mkState
                             (question ++
                              [mkMessage "assistant"
                                 (Some [ToolUseMember lookupRequest;
                                        searchRequest])])%list)
                          1))
                (toolResultsMessage results)) 1).
Proof.
  apply (unknown_tool_result alwaysSearch
           (mkConfig NodeTools
              (mkState
                 (question ++
                  [mkMessage "assistant"
                     (Some [ToolUseMember lookupRequest; searchRequest])])%list)
              1)
           (mkMessage "assistant"
              (Some [ToolUseMember lookupRequest; searchRequest]))
           lookupRequest).
  - reflexivity.
  - reflexivity.
  - left. reflexivity.
  - reflexivity.
  - reflexivity.
Defined.

(** ** The model node and the conditional edge *)



(** C5: when [bedrockClient.send] rejects, the model node sends no
    second request: the run rejects with that very error after the one
    request, whatever budget of super-steps remains. *)
Theorem gateway_error_fails_run
        (send : nat -> ConverseCommand -> Throws ConverseResponse)
        (c0 c : Config) (n : nat) (e : Exn) :
  after send n c0 = Some c ->
  node c = NodeModel ->
  send (calls c) (commandFor (state c)) = throw e ->
  callBedrockModel send (calls c) (state c) = throw e /\
  step send c = inr (Failed e (S (calls c))) /\
  forall fuel, run send (n + S fuel) c0 = Some (Failed e (S (calls c))).
Proof.
  intros Hafter Hnode Hsend.
  pose proof (step_model_rejected send c e Hnode Hsend) as Hstep.
  repeat split.
  - unfold callBedrockModel. cbv zeta. fold (commandFor (state c)).
    rewrite Hsend. reflexivity.
  - exact Hstep.
  - intros fuel. rewrite (run_after send n _ c0 c Hafter).
    cbn [run]. rewrite Hstep. reflexivity.
Qed.

Lemma gateway_error_fails_run_witness :
  run throttled 4 (initial question) =
  Some (Failed (ServiceException "ThrottlingException") 2).
Proof.
  destruct (gateway_error_fails_run throttled (initial question)
              (mkConfig NodeModel
                 (mkState
                    (question ++
                     [mkMessage "assistant" (Some [searchRequest]);
                      toolResultsMessage
                        [mkToolResult (Some "tooluse_1") [TextContent foggy]]])%list)
                 1)
              3 (ServiceException "ThrottlingException")
              eq_refl eq_refl eq_refl)
    as (_ & _ & Hrun).
  exact (Hrun 0).
Defined.



(** ** The message log only grows *)

Lemma isPrefix_refl (a : list Message) : isPrefix a a.
Proof. exists []. now rewrite app_nil_r. Qed.

Lemma isPrefix_trans (a b c : list Message) :
  isPrefix a b -> isPrefix b c -> isPrefix a c.
Proof.
  intros [x ->] [y ->]. exists (x ++ y)%list. now rewrite app_assoc.
Qed.

(** Merging any update through the reducer keeps what was there. *)
Lemma applyUpdate_prefix (s : GraphState) (u : PartialState) :
  isPrefix (messages s) (messages (applyUpdate s u)).
Proof.
  unfold applyUpdate, reducer.
  destruct (messagesUpdate u) as [b|]; [exists b; reflexivity | apply isPrefix_refl].
Qed.

(** C7: across every super-step of the graph (start, model call or
    tool execution) the messages held before the step are an initial
    segment of the messages held after it. *)
Theorem step_appends
        (send : nat -> ConverseCommand -> Throws ConverseResponse)
        (c c' : Config) :
  step send c = inl c' ->
  isPrefix (messages (state c)) (messages (state c')).
Proof.
  unfold step. destruct (node c).
  - intros H. inversion H. apply isPrefix_refl.
  - destruct (callBedrockModel send (calls c) (state c)) as [e|u];
      [discriminate|].
    cbv zeta.
    destruct (shouldContinue (applyUpdate (state c) u)); [discriminate|].
    intros H. inversion H. apply applyUpdate_prefix.
  - destruct (executeTools (state c)) as [e|u]; [discriminate|].
    intros H. inversion H. apply applyUpdate_prefix.
  - discriminate.
Qed.

Lemma step_appends_witness :
  isPrefix
    (question ++ [searchTurn])%list
    (question ++
     [searchTurn;
      toolResultsMessage [mkToolResult (Some "tooluse_1") [TextContent foggy]]])%list.
Proof.
  apply (step_appends scripted
           (mkConfig NodeTools (mkState (question ++ [searchTurn])%list) 1)
           (mkConfig NodeModel
              (mkState
                 (question ++
                  [searchTurn;
                   toolResultsMessage
                     [mkToolResult (Some "tooluse_1") [TextContent foggy]]])%list)
              1)).
  reflexivity.
Defined.

(** The same over any number of super-steps, and for the state a run
    resolves with. *)
Lemma after_prefix
      (send : nat -> ConverseCommand -> Throws ConverseResponse)
      (n : nat) (c c' : Config) :
  after send n c = Some c' ->
  isPrefix (messages (state c)) (messages (state c')).
Proof.
  revert c. induction n as [|n IH]; intros c H; cbn in H.
  - inversion H. apply isPrefix_refl.
  - destruct (step send c) as [c1|o] eqn:E; [|discriminate].
    unfold step in E.
    apply (isPrefix_trans _ (messages (state c1))); [|apply IH; exact H].
    destruct (node c).
    + inversion E. apply isPrefix_refl.
    + destruct (callBedrockModel send (calls c) (state c)) as [e|u];
        [discriminate|].
      cbv zeta in E.
      destruct (shouldContinue (applyUpdate (state c) u)); [discriminate|].
      inversion E. apply applyUpdate_prefix.
    + destruct (executeTools (state c)) as [e|u]; [discriminate|].
      inversion E. apply applyUpdate_prefix.
    + discriminate.
Qed.

(** ** A model that never stops asking for tools *)

Section Cycles.

Variable send : nat -> ConverseCommand -> Throws ConverseResponse.
Hypothesis asks : alwaysRequests send.

(** One model-to-tools cycle: two super-steps, one request, two
    more messages, and the model node again. *)
Lemma cycle (c : Config) :
  node c = NodeModel ->
  exists turn results,
    after send 2 c =
    Some (mkConfig NodeModel
            (mkState (messages (state c) ++ [turn; results])%list)
            (S (calls c))).
Proof.
  intros Hnode.
  destruct (asks (calls c) (commandFor (state c)))
    as (response & Hsend & Hne & Hwf).
  assert (Htools : hasToolUse (assistantTurn response) = true).
  { destruct (hasToolUse (assistantTurn response)) eqn:E; [reflexivity|].
    apply hasToolUse_requestsOf in E. contradiction. }
  destruct (executeTools_requests
              (appended (state c) (assistantTurn response))
              (assistantTurn response)
              (lastMessage_snoc _ _) Hne Hwf)
    as (results & _ & Hexec).
  exists (assistantTurn response), (toolResultsMessage results).
  cbn [after].
  rewrite (step_model_ok send c response Hnode Hsend), Htools.
  rewrite (step_tools_ok send
             (mkConfig NodeTools (appended (state c) (assistantTurn response))
                (S (calls c)))
             (toolResultsMessage results) eq_refl Hexec).
  unfold appended. cbn [state messages calls].
  rewrite <- app_assoc. reflexivity.
Qed.

Lemma cycles (k : nat) (c : Config) :
  node c = NodeModel ->
  exists c',
    after send (2 * k) c = Some c' /\
    node c' = NodeModel /\
    calls c' = calls c + k /\
    List.length (messages (state c')) =
      List.length (messages (state c)) + 2 * k.
Proof.
  revert c. induction k as [|k IH]; intros c Hnode.
  - exists c. cbn. repeat split; [assumption | lia | lia].
  - destruct (cycle c Hnode) as (turn & results & H2).
    destruct (IH (mkConfig NodeModel
                    (mkState (messages (state c) ++ [turn; results])%list)
                    (S (calls c))) eq_refl)
      as (c' & Hafter & Hnode' & Hcalls & Hlen).
    exists c'.
    replace (2 * S k) with (2 + 2 * k) by lia.
    rewrite (after_add send 2 (2 * k) c _ H2).
    repeat split; [exact Hafter | exact Hnode' | |].
    + rewrite Hcalls. cbn [calls]. lia.
    + rewrite Hlen. cbn [state messages].
      rewrite length_app. cbn [List.length]. lia.
Qed.

Lemma cycles_from_start (k : nat) (input : list Message) :
  exists c',
    after send (1 + 2 * k) (initial input) = Some c' /\
    node c' = NodeModel /\
    calls c' = k /\
    List.length (messages (state c')) = List.length input + 2 * k.
Proof.
  destruct (cycles k (mkConfig NodeModel (mkState input) 0) eq_refl)
    as (c' & Hafter & Hnode & Hcalls & Hlen).
  exists c'. repeat split; [|exact Hnode|exact Hcalls|exact Hlen].
  rewrite (after_add send 1 (2 * k) (initial input)
             (mkConfig NodeModel (mkState input) 0) eq_refl).
  exact Hafter.
Qed.

End Cycles.

Lemma alwaysSearch_asks : alwaysRequests alwaysSearch.
Proof.
  intros n command. eexists. split; [reflexivity|].
  split; [discriminate | reflexivity].
Qed.

(** C6, as stated, fails: [invoke] takes no [maxTurns].  With a model
    that asks for [search] on every request the run is still going
    after two full cycles, whatever bound the caller has in mind, and
    it ends when the runtime's own step limit is reached, with
    [GraphRecursionError] after 13 requests. *)
Lemma alwaysSearch_hits_recursion_limit :
  (exists c,
      after alwaysSearch 5 (initial question) = Some c /\
      node c = NodeModel /\ calls c = 2) /\
  bedrockWorkflowInvoke alwaysSearch question = Failed GraphRecursionError 13.
Proof.
  split.
  - eexists. split; [reflexivity|]. split; reflexivity.
  - reflexivity.
Qed.

(** C6, amended: the graph has no turn counter of its own and takes
    no [maxTurns]; the only bound is the runtime's default step limit.
    With a model that on every request asks for a tool (well-formed
    requests), the run goes on through every super-step the limit
    admits, and [invoke] rejects with [GraphRecursionError] after
    exactly 13 requests and 12 tool executions, 25 messages having
    been appended and the thirteenth turn's tools not run. *)
Theorem always_requesting_hits_recursion_limit
        (send : nat -> ConverseCommand -> Throws ConverseResponse)
        (asked : list Message) :
  alwaysRequests send ->
  (forall n, n <= S recursionLimit ->
             exists c, after send n (initial asked) = Some c) /\
  (exists c,
      after send (S recursionLimit) (initial asked) = Some c /\
      node c = NodeTools /\
      calls c = 13 /\
      List.length (messages (state c)) = List.length asked + 25) /\
  bedrockWorkflowInvoke send asked = Failed GraphRecursionError 13.
Proof.
  intros Hasks.
  destruct (cycles_from_start send Hasks 12 asked)
    as (c12 & Hafter & Hnode & Hcalls & Hlen).
  destruct (Hasks (calls c12) (commandFor (state c12)))
    as (response & Hsend & Hne & _).
  assert (Htools : hasToolUse (assistantTurn response) = true).
  { destruct (hasToolUse (assistantTurn response)) eqn:E; [reflexivity|].
    apply hasToolUse_requestsOf in E. contradiction. }
  pose proof (step_model_ok send c12 response Hnode Hsend) as Hstep.
  rewrite Htools in Hstep.
  assert (Hlast : after send (S recursionLimit) (initial asked) =
                  Some (mkConfig NodeTools
                          (appended (state c12) (assistantTurn response))
                          (S (calls c12)))).
  { change (S recursionLimit) with ((1 + 2 * 12) + 1).
    rewrite (after_add send (1 + 2 * 12) 1 _ c12 Hafter).
    cbn [after]. rewrite Hstep. reflexivity. }
  split; [|split].
  - intros n Hn.
    apply (after_le send n (S recursionLimit - n) (initial asked)
             (mkConfig NodeTools
                (appended (state c12) (assistantTurn response))
                (S (calls c12)))).
    replace (n + (S recursionLimit - n)) with (S recursionLimit) by lia.
    exact Hlast.
  - eexists. split; [exact Hlast|].
    cbn [node calls state]. repeat split.
    + rewrite Hcalls. reflexivity.
    + unfold appended. cbn [messages]. rewrite length_app, Hlen. cbn. lia.
  - unfold bedrockWorkflowInvoke.
    rewrite (ticks_after send _ _ _ Hlast). cbn [calls].
    rewrite Hcalls. reflexivity.
Qed.

Lemma always_requesting_hits_recursion_limit_witness :
  alwaysRequests alwaysSearch /\
  bedrockWorkflowInvoke alwaysSearch question = Failed GraphRecursionError 13.
Proof.
  split.
  - intros n command. eexists. split; [reflexivity|].
    split; [discriminate | reflexivity].
  - apply (always_requesting_hits_recursion_limit alwaysSearch question).
    intros n command. eexists. split; [reflexivity|].
    split; [discriminate | reflexivity].
Defined.

(** * Further properties of the source *)

(** ** [searchTool] on arbitrary inputs *)

Module JsStringMore.
Import JsString.

Lemma lowerChar_idempotent (c : ascii) : lowerChar (lowerChar c) = lowerChar c.
Proof.
  destruct c as [[] [] [] [] [] [] [] []]; reflexivity.
Qed.

Lemma toLowerCase_idempotent (s : string) :
  toLowerCase (toLowerCase s) = toLowerCase s.
Proof.
  induction s as [|c s IH]; cbn; [reflexivity|].
  now rewrite lowerChar_idempotent, IH.
Qed.

Lemma toLowerCase_append (a b : string) :
  toLowerCase (a ++ b) = toLowerCase a ++ toLowerCase b.
Proof.
  induction a as [|c a IH]; cbn; [reflexivity | now rewrite IH].
Qed.

Lemma toLowerCase_length (s : string) :
  String.length (toLowerCase s) = String.length s.
Proof.
  induction s as [|c s IH]; cbn; [reflexivity | now rewrite IH].
Qed.

Lemma append_length (a b : string) :
  String.length (a ++ b) = String.length a + String.length b.
Proof.
  induction a as [|c a IH]; cbn; [reflexivity | now rewrite IH].
Qed.

Lemma Contains_length (s needle : string) :
  Contains s needle -> String.length needle <= String.length s.
Proof.
  intros (pre & post & ->). rewrite !append_length. lia.
Qed.

End JsStringMore.

Lemma searchTool_string_query (fields : list (string * Document)) (q : string) :
  getField "query" fields = Some (DString q) ->
  searchTool (Some (DObject fields)) = searchTool (queryArg q).
Proof.
  intros H. unfold searchTool, queryArg, destructureQuery.
  cbn [getField String.eqb Ascii.eqb Bool.eqb]. rewrite H. reflexivity.
Qed.

Lemma searchTool_throws (arg : option Document) :
  hasStringQuery arg = false ->
  exists msg, searchTool arg = throw (TypeError msg).
Proof.
  unfold hasStringQuery, searchTool, destructureQuery, callToLowerCase.
  destruct arg as [[| | | | |fields]|]; intros H;
    try (eexists; reflexivity).
  destruct (getField "query" fields) as [[| | |q| |]|];
    try discriminate; eexists; reflexivity.
Qed.

Lemma searchTool_returns (arg : option Document) :
  hasStringQuery arg = true ->
  searchTool arg = ret foggy \/ searchTool arg = ret sunny.
Proof.
  unfold hasStringQuery.
  destruct arg as [[| | | | |fields]|]; try discriminate.
  destruct (getField "query" fields) as [[| | |q| |]|] eqn:F; try discriminate.
  intros _. rewrite (searchTool_string_query fields q F), searchTool_query.
  destruct (JsString.includes (JsString.toLowerCase q) "sf"
            || JsString.includes (JsString.toLowerCase q) "san francisco");
    [left | right]; reflexivity.
Qed.

(** X1: [searchTool] resolves exactly on an input object whose
    [query] is a string, and then with one of its two sentences; on any
    other input ([undefined], [null], a primitive, an array, an object
    whose [query] is missing or not a string) it throws a [TypeError]. *)
Theorem searchTool_resolves_iff_string_query (arg : option Document) :
  ((exists text, searchTool arg = ret text) <-> hasStringQuery arg = true) /\
  ((exists msg, searchTool arg = throw (TypeError msg)) <->
   hasStringQuery arg = false) /\
  (forall text, searchTool arg = ret text -> text = foggy \/ text = sunny).
Proof.
  destruct (hasStringQuery arg) eqn:H.
  - pose proof (searchTool_returns arg H) as Hret.
    repeat split.
    + destruct Hret as [E|E]; eexists; exact E.
    + intros [msg E]. destruct Hret as [R|R]; rewrite R in E; discriminate.
    + discriminate.
    + intros text E.
      destruct Hret as [R|R]; rewrite R in E; inversion E; auto.
  - destruct (searchTool_throws arg H) as [msg Hthrow].
    repeat split.
    + intros [text E]. rewrite Hthrow in E. discriminate.
    + discriminate.
    + exists msg. exact Hthrow.
    + intros text E. rewrite Hthrow in E. discriminate.
Qed.

(** X2: the match is case-insensitive and positional-free: a query
    that contains, anywhere, a piece whose lowercase form is ["sf"] or
    ["san francisco"] gets the San Francisco sentence. *)
Theorem searchTool_any_case_anywhere (pre piece post : string) :
  JsString.toLowerCase piece = "sf" \/
  JsString.toLowerCase piece = "san francisco" ->
  searchTool (queryArg (pre ++ piece ++ post)) = ret foggy.
Proof.
  intros H. rewrite searchTool_query.
  rewrite !JsStringMore.toLowerCase_append.
  destruct H as [H|H]; rewrite H.
  - replace (JsString.includes
               (JsString.toLowerCase pre ++ "sf" ++ JsString.toLowerCase post)
               "sf") with true; [reflexivity|].
    symmetry. apply JsStringFacts.includes_Contains.
    eexists _, _. reflexivity.
  - replace (JsString.includes
               (JsString.toLowerCase pre ++ "san francisco" ++
                JsString.toLowerCase post)
               "san francisco") with true; [now rewrite orb_true_r|].
    symmetry. apply JsStringFacts.includes_Contains.
    eexists _, _. reflexivity.
Qed.

Lemma searchTool_any_case_anywhere_witness :
  searchTool (queryArg ("Weather in " ++ "San Francisco" ++ " today?")) =
  ret foggy.
Proof.
  apply (searchTool_any_case_anywhere "Weather in " "San Francisco" " today?").
  right. reflexivity.
Defined.

(** X3: a query shorter than two characters, the empty query
    included, always gets the sunny sentence. *)
Theorem searchTool_short_query (q : string) :
  String.length q < 2 ->
  searchTool (queryArg q) = ret sunny.
Proof.
  intros Hlen. rewrite searchTool_query.
  assert (Hsf : JsString.includes (JsString.toLowerCase q) "sf" = false).
  { apply JsStringFacts.includes_not_Contains. intros Hc.
    apply JsStringMore.Contains_length in Hc.
    rewrite JsStringMore.toLowerCase_length in Hc. cbn in Hc. lia. }
  assert (Hsan : JsString.includes (JsString.toLowerCase q) "san francisco" = false).
  { apply JsStringFacts.includes_not_Contains. intros Hc.
    apply JsStringMore.Contains_length in Hc.
    rewrite JsStringMore.toLowerCase_length in Hc. cbn in Hc. lia. }
  rewrite Hsf, Hsan. reflexivity.
Qed.

Lemma searchTool_short_query_witness :
  String.length "S" < 2 /\ searchTool (queryArg "S") = ret sunny.
Proof.
  split; [cbn; lia | apply (searchTool_short_query "S"); cbn; lia].
Defined.

(** X4: the answer does not depend on the letter case of the query:
    lowercasing the query beforehand changes nothing. *)
Theorem searchTool_ignores_case (q : string) :
  searchTool (queryArg (JsString.toLowerCase q)) = searchTool (queryArg q).
Proof.
  rewrite !searchTool_query, JsStringMore.toLowerCase_idempotent. reflexivity.
Qed.

(** ** The tool loop on arbitrary turns *)

Lemma dispatch_returns_wellFormed (t : ToolUseBlock) (text : string) :
  dispatch t = ret text -> wellFormedRequest t = true.
Proof.
  unfold dispatch, wellFormedRequest.
  destruct (isSearch (name t)); [|reflexivity].
  destruct (hasStringQuery (input t)) eqn:H; [reflexivity|].
  destruct (searchTool_throws _ H) as [msg ->]. discriminate.
Qed.

Lemma dispatch_throws (t : ToolUseBlock) (e : Exn) :
  dispatch t = throw e ->
  isSearch (name t) = true /\ hasStringQuery (input t) = false /\
  exists msg, e = TypeError msg.
Proof.
  unfold dispatch.
  destruct (isSearch (name t)); [|discriminate].
  intros H. split; [reflexivity|].
  destruct (hasStringQuery (input t)) eqn:Hq.
  - destruct (searchTool_returns _ Hq) as [R|R]; rewrite R in H; discriminate.
  - split; [reflexivity|].
    destruct (searchTool_throws _ Hq) as [msg Hm].
    rewrite Hm in H. inversion H. exists msg. reflexivity.
Qed.

Lemma executeOne_throws (t : ToolUseBlock) (e : Exn) :
  dispatch t = throw e -> executeOne (ToolUseMember t) = throw e.
Proof. unfold executeOne. cbn. intros ->. reflexivity. Qed.

Lemma Forall2_answers_wellFormed (requests : list ToolUseBlock)
      (results : list ToolResultBlock) :
  Forall2 answers requests results ->
  forallb wellFormedRequest requests = true.
Proof.
  induction 1 as [|t r requests results (_ & text & Htext & _) _ IH];
    [reflexivity|].
  cbn. rewrite (dispatch_returns_wellFormed t text Htext). exact IH.
Qed.

(** What the loop has pushed when it ends normally. *)
Lemma toolLoop_inv (requests : list ToolUseBlock) :
  forall acc out,
    toolLoop (map ToolUseMember requests) acc = ret out ->
    exists results,
      Forall2 answers requests results /\
      out = (acc ++ map ToolResultMember results)%list.
Proof.
  induction requests as [|t requests IH]; intros acc out H.
  - cbn in H. inversion H. exists []. split; [constructor|].
    now rewrite app_nil_r.
  - cbn [map toolLoop] in H.
    destruct (dispatch t) as [e|text] eqn:D.
    + rewrite (executeOne_throws t e D) in H. discriminate.
    + rewrite (executeOne_request t text D) in H. cbn [bind ret] in H.
      destruct (IH _ _ H) as (results & Hall & ->).
      exists (mkToolResult (toolUseId t) [TextContent text] :: results).
      split.
      * constructor; [|exact Hall].
        split; [reflexivity|]. exists text. split; [exact D | reflexivity].
      * rewrite <- app_assoc. reflexivity.
Qed.

(** Which request made the loop throw. *)
Lemma toolLoop_throw_inv (requests : list ToolUseBlock) :
  forall acc e,
    toolLoop (map ToolUseMember requests) acc = throw e ->
    exists t, In t requests /\ dispatch t = throw e.
Proof.
  induction requests as [|t requests IH]; intros acc e H.
  - discriminate.
  - cbn [map toolLoop] in H.
    destruct (dispatch t) as [e'|text] eqn:D.
    + rewrite (executeOne_throws t e' D) in H. inversion H. subst e'.
      exists t. split; [left; reflexivity | exact D].
    + rewrite (executeOne_request t text D) in H. cbn [bind ret] in H.
      destruct (IH _ _ H) as (t' & Hin & Ht').
      exists t'. split; [right; exact Hin | exact Ht'].
Qed.

Lemma executeTools_inv (s : GraphState) (u : PartialState) :
  executeTools s = ret u ->
  exists m results,
    lastMessage s = Some m /\
    requestsOf m <> [] /\
    Forall2 answers (requestsOf m) results /\
    u = mkPartial (Some [toolResultsMessage results]).
Proof.
  unfold executeTools.
  destruct (lastMessage s) as [m|]; [|discriminate].
  cbv zeta. rewrite toolUseBlocksOf_requestsOf, length_map.
  destruct (requestsOf m) as [|t rest] eqn:E; [discriminate|].
  cbn [List.length Nat.eqb].
  destruct (toolLoop (map ToolUseMember (t :: rest)) []) as [e|out] eqn:L;
    [discriminate|].
  destruct (toolLoop_inv _ _ _ L) as (results & Hall & ->).
  cbn. intros H. inversion H.
  exists m, results. rewrite E.
  repeat split; [discriminate | exact Hall].
Qed.

(** X5: the loop composes: running it over [first ++ second] is
    running it over [first] and, if that does not throw, continuing
    over [second] with what has been pushed so far. *)
Theorem toolLoop_app (first second acc : list ContentBlock) :
  toolLoop (first ++ second)%list acc =
  (pushed <- toolLoop first acc ;; toolLoop second pushed).
Proof.
  revert acc. induction first as [|b first IH]; intros acc; [reflexivity|].
  cbn [app toolLoop].
  destruct (executeOne b) as [e|pushed]; [reflexivity|].
  cbn [bind]. apply IH.
Qed.

(** X6: whenever [executeTools] returns, whatever the turn, it returns
    one [user] message whose blocks answer the requests of the last
    message one for one, in order and with the same ids; so the turn
    had at least one request and no block is lost or added. *)
Theorem executeTools_result_shape (s : GraphState) (u : PartialState) :
  executeTools s = ret u ->
  exists m results,
    lastMessage s = Some m /\
    u = mkPartial (Some [toolResultsMessage results]) /\
    Forall2 answers (requestsOf m) results /\
    map resultToolUseId results = map toolUseId (requestsOf m) /\
    0 < List.length results /\
    List.length results = List.length (requestsOf m).
Proof.
  intros H.
  destruct (executeTools_inv s u H) as (m & results & Hlast & Hne & Hall & ->).
  exists m, results.
  pose proof (Forall2_answers_ids _ _ Hall) as Hids.
  assert (Hlen : List.length results = List.length (requestsOf m)).
  { rewrite <- (length_map resultToolUseId), Hids, length_map. reflexivity. }
  repeat split; try assumption.
  rewrite Hlen. destruct (requestsOf m); [contradiction | cbn; lia].
Qed.

Lemma executeTools_result_shape_witness :
  exists m results,
    lastMessage (mkState (question ++ [searchTurn])%list) = Some m /\
    mkPartial
      (Some [toolResultsMessage
               [mkToolResult (Some "tooluse_1") [TextContent foggy]]]) =
      mkPartial (Some [toolResultsMessage results]) /\
    Forall2 answers (requestsOf m) results /\
    map resultToolUseId results = map toolUseId (requestsOf m) /\
    0 < List.length results /\
    List.length results = List.length (requestsOf m).
Proof.
  apply (executeTools_result_shape (mkState (question ++ [searchTurn])%list)).
  reflexivity.
Defined.

(** X7: [executeTools] returns exactly when the state has a last
    message, that message carries at least one tool request, and every
    request naming [search] has a string [query]. *)
Theorem executeTools_returns_iff (s : GraphState) :
  (exists u, executeTools s = ret u) <->
  (exists m,
      lastMessage s = Some m /\
      requestsOf m <> [] /\
      forallb wellFormedRequest (requestsOf m) = true).
Proof.
  split.
  - intros [u H].
    destruct (executeTools_inv s u H) as (m & results & Hlast & Hne & Hall & _).
    exists m. repeat split; try assumption.
    apply (Forall2_answers_wellFormed _ _ Hall).
  - intros (m & Hlast & Hne & Hwf).
    destruct (executeTools_requests s m Hlast Hne Hwf) as (results & _ & H).
    eexists. exact H.
Qed.

(** The loop stops at the first request whose dispatch throws. *)
Lemma toolLoop_stops_at (done : list ToolUseBlock) (t : ToolUseBlock)
      (rest : list ToolUseBlock) (e : Exn) :
  forallb wellFormedRequest done = true ->
  dispatch t = throw e ->
  forall acc,
    toolLoop (map ToolUseMember (done ++ t :: rest)%list) acc = throw e.
Proof.
  intros Hwf Ht. induction done as [|d done IH]; intros acc.
  - cbn [app map toolLoop]. rewrite (executeOne_throws t e Ht). reflexivity.
  - cbn in Hwf. apply andb_true_iff in Hwf. destruct Hwf as [Hd Hdone].
    destruct (dispatch_wellFormed d Hd) as [text Htext].
    cbn [app map toolLoop].
    rewrite (executeOne_request d text Htext). cbn [bind ret].
    apply IH. exact Hdone.
Qed.

(** X8: the first request that throws ends the step: when the requests
    before it are well formed and its dispatch throws [e],
    [executeTools] throws [e]; the blocks already built are dropped
    and the requests after it are never run. *)
Theorem executeTools_first_failure
        (s : GraphState) (m : Message)
        (done : list ToolUseBlock) (t : ToolUseBlock)
        (rest : list ToolUseBlock) (e : Exn) :
  lastMessage s = Some m ->
  requestsOf m = (done ++ t :: rest)%list ->
  forallb wellFormedRequest done = true ->
  dispatch t = throw e ->
  executeTools s = throw e.
Proof.
  intros Hlast Hreq Hwf Ht.
  unfold executeTools. rewrite Hlast. cbv zeta.
  rewrite toolUseBlocksOf_requestsOf, Hreq, length_map.
  destruct (done ++ t :: rest)%list eqn:E;
    [destruct done; discriminate|].
  cbn [List.length Nat.eqb]. rewrite <- E.
  rewrite (toolLoop_stops_at done t rest e Hwf Ht). reflexivity.
Qed.

Lemma executeTools_first_failure_witness :
  executeTools (mkState (question ++ [mixedTurn])%list) = throw undefinedQuery.
Proof.
  apply (executeTools_first_failure
           (mkState (question ++ [mixedTurn])%list) mixedTurn
           [lookupRequest] emptySearchRequest [] undefinedQuery);
    reflexivity.
Defined.

(** X9: the outcome of [executeTools] depends only on the tool
    requests of the last message: earlier messages, the role of the
    last message and its other blocks play no part. *)
Theorem executeTools_requests_only (s1 s2 : GraphState) (m1 m2 : Message) :
  lastMessage s1 = Some m1 ->
  lastMessage s2 = Some m2 ->
  requestsOf m1 = requestsOf m2 ->
  executeTools s1 = executeTools s2.
Proof.
  intros H1 H2 Hreq. unfold executeTools. rewrite H1, H2. cbv zeta.
  rewrite !toolUseBlocksOf_requestsOf, Hreq. reflexivity.
Qed.

Lemma executeTools_requests_only_witness :
  executeTools (mkState (question ++ [searchTurn])%list) =
  executeTools (mkState [mkMessage "user" (Some [searchRequest; OtherMember "image"])]).
Proof.
  apply (executeTools_requests_only
           (mkState (question ++ [searchTurn])%list)
           (mkState [mkMessage "user" (Some [searchRequest; OtherMember "image"])])
           searchTurn
           (mkMessage "user" (Some [searchRequest; OtherMember "image"])));
    reflexivity.
Defined.

(** X10: the conditional edge and the guard of [executeTools] agree:
    the edge leads to the end node exactly on the states where
    [executeTools] would throw ["No tool calls found in message."],
    and to the tools node exactly when the last message carries a tool
    request. *)
Theorem shouldContinue_matches_guard (s : GraphState) :
  (shouldContinue s = ret NodeEnd <-> executeTools s = throw noToolCalls) /\
  (shouldContinue s = ret NodeTools <->
   exists m, lastMessage s = Some m /\ requestsOf m <> []).
Proof.
  unfold shouldContinue, executeTools.
  destruct (lastMessage s) as [m|].
  - cbv zeta. rewrite toolUseBlocksOf_requestsOf, length_map.
    pose proof (hasToolUse_requestsOf m) as Hiff.
    destruct (hasToolUse m) eqn:Hhas.
    + assert (Hne : requestsOf m <> []).
      { intros E. apply Hiff in E. discriminate. }
      destruct (requestsOf m) as [|t rest] eqn:E; [contradiction|].
      cbn [List.length Nat.eqb].
      split; split.
      * discriminate.
      * intros H.
        destruct (toolLoop (map ToolUseMember (t :: rest)) []) as [e|out] eqn:L;
          [|discriminate].
        destruct (toolLoop_throw_inv _ _ _ L) as (t' & _ & Ht').
        destruct (dispatch_throws _ _ Ht') as (_ & _ & msg & ->).
        cbn in H. inversion H.
      * intros _. exists m. split; [reflexivity | rewrite E; discriminate].
      * reflexivity.
    + rewrite (proj1 Hiff eq_refl). cbn.
      split; split; try reflexivity; try discriminate.
      intros (m' & Hm & Hne). inversion Hm. subst m'.
      rewrite (proj1 Hiff eq_refl) in Hne. contradiction.
  - split; split; try discriminate.
    intros (m & Hm & _). discriminate.
Qed.

(** ** Runs of the graph *)

Lemma even_double (k : nat) : Nat.even (2 * k) = true.
Proof.
  induction k as [|k IH]; [reflexivity|].
  replace (2 * S k) with (S (S (2 * k))) by lia. exact IH.
Qed.

Lemma even_S_double (k : nat) : Nat.even (S (2 * k)) = false.
Proof.
  induction k as [|k IH]; [reflexivity|].
  replace (S (2 * S k)) with (S (S (S (2 * k)))) by lia. exact IH.
Qed.

Lemma lastMessage_inv (s : GraphState) (m : Message) :
  lastMessage s = Some m ->
  exists history, messages s = (history ++ [m])%list.
Proof.
  destruct s as [l]. intros H.
  destruct l as [|x l'] eqn:E; [discriminate|].
  assert (Hne : x :: l' <> []) by discriminate.
  destruct (exists_last Hne) as (history & a & Ha).
  rewrite Ha in H. rewrite lastMessage_snoc in H. inversion H. subst a.
  exists history. exact Ha.
Qed.

Lemma roles_snoc (added : list Message) (m : Message) :
  (forall i x, nth_error added i = Some x -> role x = roleAt i) ->
  role m = roleAt (List.length added) ->
  forall i x, nth_error (added ++ [m])%list i = Some x -> role x = roleAt i.
Proof.
  intros Hold Hm i x H.
  destruct (Nat.lt_ge_cases i (List.length added)) as [Hlt|Hge].
  - rewrite nth_error_app1 in H by exact Hlt. apply Hold. exact H.
  - rewrite nth_error_app2 in H by exact Hge.
    destruct (i - List.length added) as [|j] eqn:E.
    + cbn in H. inversion H. subst x.
      replace i with (List.length added) by lia. exact Hm.
    + cbn in H. destruct j; discriminate.
Qed.

Lemma textsIn_filter_map (blocks : list ContentBlock) :
  map getText (filter isText blocks) = textsIn blocks.
Proof.
  induction blocks as [|b blocks IH]; [reflexivity|].
  destruct b; cbn; rewrite ?IH; reflexivity.
Qed.

Section RunFacts.

Variable send : nat -> ConverseCommand -> Throws ConverseResponse.

Lemma initial_invariant (input : list Message) :
  runInvariant send input (initial input).
Proof.
  exists []. cbn. repeat split.
  - now rewrite app_nil_r.
  - intros [|i] m H; discriminate.
Qed.

Lemma step_invariant (input : list Message) (c c' : Config) :
  runInvariant send input c -> step send c = inl c' ->
  runInvariant send input c'.
Proof.
  intros (added & Hmsgs & Hroles & Hnode) Hstep.
  destruct (node c) eqn:N.
  - (* start *)
    unfold step in Hstep. rewrite N in Hstep. inversion Hstep.
    destruct Hnode as [-> Hcalls].
    exists []. cbn. repeat split; [exact Hmsgs | exact Hroles | | left];
      rewrite Hcalls; reflexivity.
  - (* model *)
    destruct Hnode as [Hlen _].
    destruct (send (calls c) (commandFor (state c))) as [e|response] eqn:Hsend.
    { rewrite (step_model_rejected send c e N Hsend) in Hstep. discriminate. }
    rewrite (step_model_ok send c response N Hsend) in Hstep.
    inversion Hstep. clear Hstep.
    exists (added ++ [assistantTurn response])%list.
    split; [|split].
    + cbn. rewrite Hmsgs, app_assoc. reflexivity.
    + apply roles_snoc; [exact Hroles|].
      rewrite Hlen. unfold roleAt. rewrite even_double. reflexivity.
    + assert (Hlen' : List.length (added ++ [assistantTurn response])%list + 1
                      = 2 * S (calls c)).
      { rewrite length_app. cbn. lia. }
      destruct (hasToolUse (assistantTurn response)) eqn:Hhas; cbn;
        (split; [exact Hlen'|]);
        exists (state c), response;
        (split; [reflexivity | split; [exact Hsend | exact Hhas]]).
  - (* tools *)
    destruct Hnode as (Hlen & previous & response & Hstate & _ & _).
    assert (Hlast : lastMessage (state c) = Some (assistantTurn response)).
    { rewrite Hstate. apply lastMessage_snoc. }
    destruct (executeTools (state c)) as [e|u] eqn:Hexec.
    { rewrite (step_tools_thrown send c e N Hexec) in Hstep. discriminate. }
    destruct (executeTools_inv _ _ Hexec)
      as (m & results & Hlast' & _ & Hall & ->).
    rewrite Hlast in Hlast'. inversion Hlast'. subst m.
    rewrite (step_tools_ok send c _ N Hexec) in Hstep.
    inversion Hstep. clear Hstep.
    exists (added ++ [toolResultsMessage results])%list.
    split; [|split].
    + cbn. rewrite Hmsgs, app_assoc. reflexivity.
    + apply roles_snoc; [exact Hroles|].
      replace (List.length added) with (S (2 * (calls c - 1))) by lia.
      unfold roleAt. rewrite even_S_double. reflexivity.
    + cbn. split.
      * rewrite length_app. cbn. lia.
      * right. exists (messages previous), response, results.
        split; [|exact Hall].
        rewrite Hstate. unfold appended. cbn [messages].
        rewrite <- app_assoc. reflexivity.
  - (* end *)
    unfold step in Hstep. rewrite N in Hstep. discriminate.
Qed.

Lemma after_invariant_from (input : list Message) (n : nat) (c0 c : Config) :
  runInvariant send input c0 -> after send n c0 = Some c ->
  runInvariant send input c.
Proof.
  revert c0. induction n as [|n IH]; intros c0 Hinv H; cbn in H.
  - inversion H. subst. exact Hinv.
  - destruct (step send c0) as [c1|o] eqn:E; [|discriminate].
    apply (IH c1); [apply (step_invariant input c0 c1 Hinv E) | exact H].
Qed.

Lemma after_invariant (input : list Message) (n : nat) (c : Config) :
  after send n (initial input) = Some c -> runInvariant send input c.
Proof. apply after_invariant_from, initial_invariant. Qed.

(** A settled run settled at some configuration it reached. *)
Lemma run_outcome (fuel : nat) (c0 : Config) (o : Outcome) :
  run send fuel c0 = Some o ->
  exists n c, after send n c0 = Some c /\ step send c = inr o.
Proof.
  revert c0. induction fuel as [|fuel IH]; intros c0 H; cbn in H;
    [discriminate|].
  destruct (step send c0) as [c1|o'] eqn:E.
  - destruct (IH c1 H) as (n & c & Hafter & Hstep).
    exists (S n), c. cbn. rewrite E. split; assumption.
  - inversion H. subst o'. exists 0, c0. split; [reflexivity | exact E].
Qed.

Lemma invoke_outcome (fuel : nat) (input : list Message) (o : Outcome) :
  invoke send fuel input = Some o ->
  exists c, runInvariant send input c /\ step send c = inr o.
Proof.
  intros H. destruct (run_outcome fuel _ o H) as (n & c & Hafter & Hstep).
  exists c. split; [apply (after_invariant input n c Hafter) | exact Hstep].
Qed.

Lemma step_done_inv (c : Config) (final : GraphState) (sent : nat) :
  step send c = inr (Done final sent) ->
  node c = NodeEnd /\ final = state c /\ sent = calls c.
Proof.
  unfold step. destruct (node c).
  - discriminate.
  - destruct (callBedrockModel send (calls c) (state c)); [discriminate|].
    cbv zeta. destruct (shouldContinue _); discriminate.
  - destruct (executeTools (state c)); discriminate.
  - intros H. inversion H. repeat split.
Qed.

(** Why a super-step of a run rejects. *)
Lemma step_failed_inv (asked : list Message) (c : Config) (e : Exn) (sent : nat) :
  runInvariant send asked c ->
  step send c = inr (Failed e sent) ->
  (node c = NodeModel /\ sent = S (calls c) /\
   send (calls c) (commandFor (state c)) = throw e) \/
  (node c = NodeTools /\ sent = calls c /\
   exists previous response t msg,
     state c = appended previous (assistantTurn response) /\
     send (Nat.pred (calls c)) (commandFor previous) = ret response /\
     In t (requestsOf (assistantTurn response)) /\
     isSearch (name t) = true /\ hasStringQuery (input t) = false /\
     dispatch t = throw e /\ e = TypeError msg).
Proof.
  intros (added & _ & _ & Hnode) Hstep.
  destruct (node c) eqn:N.
  - unfold step in Hstep. rewrite N in Hstep. discriminate.
  - left.
    destruct (send (calls c) (commandFor (state c))) as [e'|response] eqn:Hsend.
    + rewrite (step_model_rejected send c e' N Hsend) in Hstep.
      inversion Hstep. subst. repeat split.
    + rewrite (step_model_ok send c response N Hsend) in Hstep. discriminate.
  - right.
    destruct Hnode as (_ & previous & response & Hstate & Hsend & Hhas).
    assert (Hlast : lastMessage (state c) = Some (assistantTurn response)).
    { rewrite Hstate. apply lastMessage_snoc. }
    destruct (executeTools (state c)) as [e'|u] eqn:Hexec.
    + rewrite (step_tools_thrown send c e' N Hexec) in Hstep.
      inversion Hstep. subst e' sent. clear Hstep.
      split; [reflexivity|]. split; [reflexivity|].
      unfold executeTools in Hexec. rewrite Hlast in Hexec. cbv zeta in Hexec.
      rewrite toolUseBlocksOf_requestsOf, length_map in Hexec.
      destruct (requestsOf (assistantTurn response)) as [|t rest] eqn:E.
      { apply hasToolUse_requestsOf in E. rewrite E in Hhas. discriminate. }
      cbn [List.length Nat.eqb] in Hexec.
      destruct (toolLoop (map ToolUseMember (t :: rest)) []) as [e'|out] eqn:L;
        [|discriminate].
      cbn in Hexec. inversion Hexec. subst e'.
      destruct (toolLoop_throw_inv _ _ _ L) as (t' & Hin & Ht').
      destruct (dispatch_throws _ _ Ht') as (Hs & Hq & msg & Hmsg).
      exists previous, response, t', msg.
      split; [exact Hstate|]. split; [exact Hsend|].
      split; [rewrite E; exact Hin|].
      split; [exact Hs|]. split; [exact Hq|]. split; [exact Ht' | exact Hmsg].
    + destruct (executeTools_inv _ _ Hexec) as (m & results & _ & _ & _ & ->).
      rewrite (step_tools_ok send c _ N Hexec) in Hstep. discriminate.
  - unfold step in Hstep. rewrite N in Hstep. discriminate.
Qed.

End RunFacts.

(** X11: [invoke] rejects for one of three reasons only: a request to
    Bedrock was rejected, and the run rejects with that error at once;
    or, right after a request returned a turn, a [search] request of
    that turn whose input has no string [query] made [searchTool]
    throw a [TypeError]; or the run was still going when the runtime's
    step limit was used up, and the error is [GraphRecursionError].
    The guards of [executeTools] and [shouldContinue] are never the
    cause. *)
Theorem invoke_failure_cause
        (send : nat -> ConverseCommand -> Throws ConverseResponse)
        (asked : list Message) (e : Exn) (sent : nat) :
  bedrockWorkflowInvoke send asked = Failed e sent ->
  (exists n c,
      after send n (initial asked) = Some c /\
      node c = NodeModel /\ sent = S (calls c) /\
      send (calls c) (commandFor (state c)) = throw e) \/
  (exists n c previous response t msg,
      after send n (initial asked) = Some c /\
      node c = NodeTools /\ sent = calls c /\
      state c = appended previous (assistantTurn response) /\
      send (Nat.pred (calls c)) (commandFor previous) = ret response /\
      In t (requestsOf (assistantTurn response)) /\
      isSearch (name t) = true /\ hasStringQuery (input t) = false /\
      dispatch t = throw e /\ e = TypeError msg) \/
  (e = GraphRecursionError /\
   exists c,
     after send (S recursionLimit) (initial asked) = Some c /\
     sent = calls c).
Proof.
  intros H. unfold bedrockWorkflowInvoke in H.
  destruct (ticks_inv send _ _ _ H)
    as [(n & c & _ & Hafter & Hstep)|(c & Hafter & Ho)].
  - pose proof (after_invariant send asked n c Hafter) as Hinv.
    destruct (step_failed_inv send asked c e sent Hinv Hstep)
      as [(N & Hsent & Hsend)
         |(N & Hsent & previous & response & t & msg & Hrest)].
    + left. exists n, c. repeat split; assumption.
    + right. left. exists n, c, previous, response, t, msg.
      split; [exact Hafter|]. split; [exact N|]. split; [exact Hsent|].
      exact Hrest.
  - right. right. inversion Ho. split; [reflexivity|].
    exists c. split; [exact Hafter | reflexivity].
Qed.

Lemma invoke_failure_cause_witness :
  (exists n c,
      after throttled n (initial question) = Some c /\
      node c = NodeModel /\ 2 = S (calls c) /\
      throttled (calls c) (commandFor (state c)) =
        throw (ServiceException "ThrottlingException")) \/
  (exists n c previous response t msg,
      after throttled n (initial question) = Some c /\
      node c = NodeTools /\ 2 = calls c /\
      state c = appended previous (assistantTurn response) /\
      throttled (Nat.pred (calls c)) (commandFor previous) = ret response /\
      In t (requestsOf (assistantTurn response)) /\
      isSearch (name t) = true /\ hasStringQuery (input t) = false /\
      dispatch t = throw (ServiceException "ThrottlingException") /\
      ServiceException "ThrottlingException" = TypeError msg) \/
  (ServiceException "ThrottlingException" = GraphRecursionError /\
   exists c,
     after throttled (S recursionLimit) (initial question) = Some c /\
     2 = calls c).
Proof.
  apply (invoke_failure_cause throttled question).
  reflexivity.
Defined.

(** X12: a run that resolves has sent at least one request; its final
    state keeps the input as an initial segment and holds two messages
    per request sent but for the last request, which added one; and
    its last message is the turn that the last request sent returned,
    on the messages before it, a turn free of tool requests. *)
Theorem invoke_done_shape
        (send : nat -> ConverseCommand -> Throws ConverseResponse)
        (asked : list Message) (final : GraphState) (sent : nat) :
  bedrockWorkflowInvoke send asked = Done final sent ->
  0 < sent /\
  List.length (messages final) + 1 = List.length asked + 2 * sent /\
  isPrefix asked (messages final) /\
  exists previous response,
    final = appended previous (assistantTurn response) /\
    send (Nat.pred sent) (commandFor previous) = ret response /\
    lastMessage final = Some (assistantTurn response) /\
    requestsOf (assistantTurn response) = [].
Proof.
  intros H. unfold bedrockWorkflowInvoke in H.
  destruct (ticks_inv send _ _ _ H)
    as [(n & c & _ & Hafter & Hstep)|(c & _ & Ho)]; [|discriminate].
  destruct (after_invariant send asked n c Hafter)
    as (added & Hmsgs & _ & Hnode).
  destruct (step_done_inv send c final sent Hstep) as (N & -> & ->).
  rewrite N in Hnode.
  destruct Hnode as (Hlen & previous & response & Hstate & Hsend & Hhas).
  repeat split.
  - lia.
  - rewrite Hmsgs, length_app. lia.
  - exists added. exact Hmsgs.
  - exists previous, response.
    split; [exact Hstate|]. split; [exact Hsend|].
    split; [rewrite Hstate; apply lastMessage_snoc|].
    apply hasToolUse_requestsOf. exact Hhas.
Qed.

Lemma invoke_done_shape_witness :
  0 < 2 /\
  List.length
    (messages
       (mkState
          (question ++
           [mkMessage "assistant" (Some [searchRequest]);
            toolResultsMessage
              [mkToolResult (Some "tooluse_1") [TextContent foggy]];
            mkMessage "assistant" (Some [TextMember "It's sunny."])])%list)) + 1 =
    List.length question + 2 * 2 /\
  isPrefix question
    (messages
       (mkState
          (question ++
           [mkMessage "assistant" (Some [searchRequest]);
            toolResultsMessage
              [mkToolResult (Some "tooluse_1") [TextContent foggy]];
            mkMessage "assistant" (Some [TextMember "It's sunny."])])%list)) /\
  exists previous response,
    mkState
      (question ++
       [mkMessage "assistant" (Some [searchRequest]);
        toolResultsMessage
          [mkToolResult (Some "tooluse_1") [TextContent foggy]];
        mkMessage "assistant" (Some [TextMember "It's sunny."])])%list =
      appended previous (assistantTurn response) /\
    scripted (Nat.pred 2) (commandFor previous) = ret response /\
    lastMessage
      (mkState
         (question ++
          [mkMessage "assistant" (Some [searchRequest]);
           toolResultsMessage
             [mkToolResult (Some "tooluse_1") [TextContent foggy]];
           mkMessage "assistant" (Some [TextMember "It's sunny."])])%list) =
      Some (assistantTurn response) /\
    requestsOf (assistantTurn response) = [].
Proof.
  apply (invoke_done_shape scripted question).
  reflexivity.
Defined.

(** X13: at every point of a run the messages are the input followed
    by the appended ones, and the appended ones alternate in role:
    ["assistant"] at even positions, ["user"] at odd ones. *)
Theorem run_roles_alternate
        (send : nat -> ConverseCommand -> Throws ConverseResponse)
        (input : list Message) (n : nat) (c : Config) :
  after send n (initial input) = Some c ->
  exists added,
    messages (state c) = (input ++ added)%list /\
    forall i m, nth_error added i = Some m -> role m = roleAt i.
Proof.
  intros H.
  destruct (after_invariant send input n c H) as (added & Hmsgs & Hroles & _).
  exists added. split; assumption.
Qed.

Lemma run_roles_alternate_witness :
  exists added,
    messages
      (state
         (mkConfig NodeModel
            (mkState
               (question ++
                [mkMessage "assistant" (Some [searchRequest]);
                 toolResultsMessage
                   [mkToolResult (Some "tooluse_1") [TextContent foggy]]])%list)
            1)) = (question ++ added)%list /\
    forall i m, nth_error added i = Some m -> role m = roleAt i.
Proof.
  apply (run_roles_alternate scripted question 3).
  reflexivity.
Defined.

(** X14: on the state a run resolves with, the script's extraction of
    the final text neither throws nor yields [undefined]: it is the
    text blocks of the model's last turn joined by newlines (the empty
    string when that turn has no text block). *)
Theorem finalText_of_resolved_run
        (send : nat -> ConverseCommand -> Throws ConverseResponse)
        (fuel : nat) (input : list Message) (final : GraphState) (sent : nat) :
  invoke send fuel input = Some (Done final sent) ->
  exists response,
    lastMessage final = Some (assistantTurn response) /\
    finalText final =
    ret (Some (String.concat newline (textsIn (responseContent response)))).
Proof.
  intros H.
  destruct (invoke_outcome send fuel input _ H)
    as (c & (added & _ & _ & Hnode) & Hstep).
  destruct (step_done_inv send c final sent Hstep) as (N & -> & ->).
  rewrite N in Hnode. destruct Hnode as (_ & previous & response & Hstate & _).
  assert (Hlast : lastMessage (state c) = Some (assistantTurn response)).
  { rewrite Hstate. apply lastMessage_snoc. }
  exists response. split; [exact Hlast|].
  unfold finalText. rewrite Hlast. cbn.
  rewrite textsIn_filter_map. reflexivity.
Qed.

Lemma finalText_of_resolved_run_witness :
  exists response,
    lastMessage
      (mkState
         (question ++
          [mkMessage "assistant" (Some [searchRequest]);
           toolResultsMessage
             [mkToolResult (Some "tooluse_1") [TextContent foggy]];
           mkMessage "assistant" (Some [TextMember "It's sunny."])])%list) =
      Some (assistantTurn response) /\
    finalText
      (mkState
         (question ++
          [mkMessage "assistant" (Some [searchRequest]);
           toolResultsMessage
             [mkToolResult (Some "tooluse_1") [TextContent foggy]];
           mkMessage "assistant" (Some [TextMember "It's sunny."])])%list) =
    ret (Some (String.concat newline (textsIn (responseContent response)))).
Proof.
  apply (finalText_of_resolved_run scripted 5 question _ 2).
  reflexivity.
Defined.

(** X15: whenever a run is back at the model node after a request,
    its last two messages are the model's turn and the [user] message
    answering it: one result block per tool request of that turn, in
    order, with the same ids. *)
Theorem results_follow_their_turn
        (send : nat -> ConverseCommand -> Throws ConverseResponse)
        (input : list Message) (n : nat) (c : Config) :
  after send n (initial input) = Some c ->
  node c = NodeModel ->
  0 < calls c ->
  exists history response results,
    messages (state c) =
      (history ++ [assistantTurn response; toolResultsMessage results])%list /\
    Forall2 answers (requestsOf (assistantTurn response)) results /\
    map resultToolUseId results =
      map toolUseId (requestsOf (assistantTurn response)).
Proof.
  intros H N Hcalls.
  destruct (after_invariant send input n c H) as (added & _ & _ & Hnode).
  rewrite N in Hnode. destruct Hnode as [_ [Hzero|Hlast]]; [lia|].
  destruct Hlast as (history & response & results & Hmsgs & Hall).
  exists history, response, results.
  repeat split; [exact Hmsgs | exact Hall |].
  apply Forall2_answers_ids. exact Hall.
Qed.

Lemma results_follow_their_turn_witness :
  exists history response results,
    messages
      (state
         (mkConfig NodeModel
            (mkState
               (question ++
                [mkMessage "assistant" (Some [searchRequest]);
                 toolResultsMessage
                   [mkToolResult (Some "tooluse_1") [TextContent foggy]]])%list)
            1)) =
      (history ++ [assistantTurn response; toolResultsMessage results])%list /\
    Forall2 answers (requestsOf (assistantTurn response)) results /\
    map resultToolUseId results =
      map toolUseId (requestsOf (assistantTurn response)).
Proof.
  apply (results_follow_their_turn scripted question 3).
  - reflexivity.
  - reflexivity.
  - cbn. lia.
Defined.

(** X16: in a run the tools node is entered only on a state whose last
    message is a model turn with tool requests, so neither guard of
    [executeTools] (missing last message, no tool calls) ever fires. *)
Theorem tools_node_guard_never_fires
        (send : nat -> ConverseCommand -> Throws ConverseResponse)
        (asked : list Message) (n : nat) (c : Config) :
  after send n (initial asked) = Some c ->
  node c = NodeTools ->
  (exists response,
      lastMessage (state c) = Some (assistantTurn response) /\
      requestsOf (assistantTurn response) <> []) /\
  executeTools (state c) <> throw noToolCalls /\
  executeTools (state c) <> throw lastMessageMissing.
Proof.
  intros H N.
  destruct (after_invariant send asked n c H) as (added & _ & _ & Hnode).
  rewrite N in Hnode.
  destruct Hnode as (_ & previous & response & Hstate & _ & Hhas).
  assert (Hlast : lastMessage (state c) = Some (assistantTurn response)).
  { rewrite Hstate. apply lastMessage_snoc. }
  assert (Hne : requestsOf (assistantTurn response) <> []).
  { intros E. apply hasToolUse_requestsOf in E. rewrite E in Hhas. discriminate. }
  split; [exists response; split; assumption|].
  assert (Hcases : (exists u, executeTools (state c) = ret u) \/
                   exists msg, executeTools (state c) = throw (TypeError msg)
                               /\ exists t, dispatch t = throw (TypeError msg)).
  { unfold executeTools. rewrite Hlast. cbv zeta.
    rewrite toolUseBlocksOf_requestsOf, length_map.
    destruct (requestsOf (assistantTurn response)) as [|t rest]; [contradiction|].
    cbn [List.length Nat.eqb].
    destruct (toolLoop (map ToolUseMember (t :: rest)) []) as [e|out] eqn:L.
    - right. destruct (toolLoop_throw_inv _ _ _ L) as (t' & _ & Ht').
      destruct (dispatch_throws _ _ Ht') as (_ & _ & msg & ->).
      exists msg. split; [reflexivity | exists t'; exact Ht'].
    - left. eexists. reflexivity. }
  destruct Hcases as [[u Hu]|(msg & Hthrow & t & Ht)].
  - rewrite Hu. split; discriminate.
  - rewrite Hthrow. split.
    + discriminate.
    + intros E. inversion E. subst msg.
      unfold dispatch in Ht.
      destruct (isSearch (name t)); [|discriminate].
      unfold searchTool, destructureQuery, callToLowerCase in Ht.
      destruct (input t) as [[| | | | |fields]|]; try discriminate.
      cbn in Ht.
      destruct (getField "query" fields) as [[| | |q| |]|]; try discriminate.
      cbn in Ht.
      destruct (JsString.includes (JsString.toLowerCase q) "sf");
        [discriminate|].
      destruct (JsString.includes (JsString.toLowerCase q) "san francisco");
        discriminate.
Qed.

Lemma tools_node_guard_never_fires_witness :
  (exists response,
      lastMessage
        (state
           (mkConfig NodeTools
              (mkState (question ++ [mkMessage "assistant" (Some [searchRequest])])%list)
              1)) = Some (assistantTurn response) /\
      requestsOf (assistantTurn response) <> []) /\
  executeTools
    (state
       (mkConfig NodeTools
          (mkState (question ++ [mkMessage "assistant" (Some [searchRequest])])%list)
          1)) <> throw noToolCalls /\
  executeTools
    (state
       (mkConfig NodeTools
          (mkState (question ++ [mkMessage "assistant" (Some [searchRequest])])%list)
          1)) <> throw lastMessageMissing.
Proof.
  apply (tools_node_guard_never_fires scripted question 2); reflexivity.
Defined.

Lemma after_prefix_witness :
  isPrefix question
    (question ++
     [mkMessage "assistant" (Some [searchRequest]);
      toolResultsMessage [mkToolResult (Some "tooluse_1") [TextContent foggy]]])%list.
Proof.
  apply (after_prefix scripted 3 (initial question)
           (mkConfig NodeModel
              (mkState
                 (question ++
                  [mkMessage "assistant" (Some [searchRequest]);
                   toolResultsMessage
                     [mkToolResult (Some "tooluse_1") [TextContent foggy]]])%list)
              1)).
  reflexivity.
Defined.
